(** * The Tegra UART driver (bdk/soc/uart.c): model and properties

    The driver is polled and keeps no software state of its own: every
    function computes the address of a port's register block and reads or
    writes the registers there.  The model below follows the C file function
    by function.  The hardware is an explicit [world]: the values held by the
    read/write registers, the values the device will present on the
    registers it drives (line status, receive buffer, interrupt
    identification), the microsecond counter, and a log of every access.
    Loops that the C code runs until the hardware answers take a fuel
    argument. *)

From Stdlib Require Import ZArith List Bool Lia QArith Qround Lqa.
Import ListNotations.
Open Scope Z_scope.

(** * Machine integers

    [u32] values are integers in [0, 2^32); every operation that can leave
    that range in C is wrapped here. *)
Module U32.

Definition modulus : Z := 2 ^ 32.
Definition wrap (x : Z) : Z := x mod modulus.
Definition add (a b : Z) : Z := wrap (a + b).
Definition mul (a b : Z) : Z := wrap (a * b).
Definition not (a : Z) : Z := wrap (Z.lnot a).

(** Unsigned division; a zero divisor is undefined behaviour. *)
Definition div (a b : Z) : option Z :=
  if b =? 0 then None else Some (a / b).

(** The cast [(u8)x]. *)
Definition to_u8 (x : Z) : Z := x mod 256.

Definition in_range (x : Z) : Prop := 0 <= x < modulus.

End U32.

(** * Rounding, as the specification words it

    The nearest integer to a rational, an exact half going up, and the
    least integer not below a rational. *)
Definition round_half_up (x : Q) : Z := Qfloor (x + (1 # 2)).
Definition ceil (x : Q) : Z := Qceiling x.

(** * The header soc/uart.h

    The register bit masks and the peripheral base address are defined in
    soc/uart.h and soc/t210.h; the model takes them as a record of
    parameters. *)
Record uart_h : Type := {
  UART_BASE : Z;
  UART_TX_IDLE : Z;
  UART_RX_RDYR : Z;
  UART_IER_DLAB_IE_EORD : Z;
  UART_LCR_WORD_LENGTH_8 : Z;
  UART_LCR_STOP : Z;
  UART_LCR_DLAB : Z;
  UART_LSR_RDR : Z;
  UART_LSR_THRE : Z;
  UART_LSR_TMTY : Z;
  UART_IIR_FCR_EN_FIFO : Z;
  UART_IIR_FCR_RX_CLR : Z;
  UART_IIR_FCR_TX_CLR : Z;
  UART_IIR_NO_INT : Z;
  UART_IIR_INT_MASK : Z;
  UART_MCR_DTR : Z;
  UART_MCR_RTS : Z;
  UART_MCR_CTS_EN : Z
}.

(** The fields of [uart_t] the driver touches. *)
Inductive reg : Type :=
| UART_THR_DLAB | UART_IER_DLAB | UART_IIR_FCR | UART_LCR
| UART_MCR | UART_LSR | UART_SPR | UART_IRDA_CSR.

Definition reg_eqb (a b : reg) : bool :=
  match a, b with
  | UART_THR_DLAB, UART_THR_DLAB | UART_IER_DLAB, UART_IER_DLAB
  | UART_IIR_FCR, UART_IIR_FCR | UART_LCR, UART_LCR
  | UART_MCR, UART_MCR | UART_LSR, UART_LSR
  | UART_SPR, UART_SPR | UART_IRDA_CSR, UART_IRDA_CSR => true
  | _, _ => false
  end.

(** * The hardware *)

(** What the outside world does: the values the device presents on the
    k-th read of each register it drives, the microsecond count at the k-th
    read of the timer, and the answer of the clock driver. *)
Record env : Type := {
  lsr_in : nat -> Z;
  rbr_in : nat -> Z;
  iir_in : nat -> Z;
  tmr_in : nat -> Z;
  clk_in : Z -> Z -> bool
}.

Inductive event : Type :=
| EvRead (uart : Z) (r : reg) (v : Z)
| EvWrite (uart : Z) (r : reg) (v : Z)
| EvTimer (v : Z)
| EvSleep (us : Z)
| EvClock (idx baud : Z).

(** [regs] holds the last value written to each register of each block;
    [lsr_n], [rbr_n], [iir_n] and [tmr_n] count the reads made so far;
    [log] lists every access, the most recent first. *)
Record world : Type := {
  hw : env;
  regs : Z -> reg -> Z;
  lsr_n : nat;
  rbr_n : nat;
  iir_n : nat;
  tmr_n : nat;
  log : list event
}.

(** The values still to come, counted from the current position. *)
Definition next_lsr (w : world) (k : nat) : Z := lsr_in (hw w) (lsr_n w + k).
Definition next_rbr (w : world) (k : nat) : Z := rbr_in (hw w) (rbr_n w + k).
Definition next_tmr (w : world) (k : nat) : Z := tmr_in (hw w) (tmr_n w + k).

(** The value the k-th coming call of [get_tmr_us] returns: the 32-bit
    reading of the counter. *)
Definition next_reading (w : world) (k : nat) : Z := U32.wrap (next_tmr w k).

Definition boot (e : env) (r : Z -> reg -> Z) : world :=
  {| hw := e; regs := r; lsr_n := 0; rbr_n := 0; iir_n := 0; tmr_n := 0;
     log := [] |}.

Definition is_write (e : event) : bool :=
  match e with
  | EvWrite _ _ _ => true
  | _ => false
  end.

Definition is_read (e : event) : bool :=
  match e with
  | EvRead _ _ _ => true
  | _ => false
  end.

(** * Outcomes

    A run returns, hits undefined behaviour, or exhausts its fuel. *)
Inductive fault : Type :=
| OutOfBounds (idx : Z)
| DivByZero.

Inductive outcome (A : Type) : Type :=
| Ret (a : A) (w : world)
| Fault (f : fault)
| OutOfFuel.
Arguments Ret {A} a w.
Arguments Fault {A} f.
Arguments OutOfFuel {A}.

Definition M (A : Type) : Type := world -> outcome A.

Definition ret {A} (a : A) : M A := fun w => Ret a w.

Definition bind {A B} (c : M A) (k : A -> M B) : M B :=
  fun w =>
    match c w with
    | Ret a w' => k a w'
    | Fault f => Fault f
    | OutOfFuel => OutOfFuel
    end.

Definition fail {A} (f : fault) : M A := fun _ => Fault f.
Definition out_of_fuel {A} : M A := fun _ => OutOfFuel.

Declare Scope uart_scope.
Delimit Scope uart_scope with uart.
Notation "x <- c ;; k" := (bind c (fun x => k))
  (at level 61, c at next level, right associativity) : uart_scope.
Notation "c ;;; k" := (bind c (fun _ => k))
  (at level 61, right associativity) : uart_scope.
Open Scope uart_scope.

(** * Register and timer accesses *)

Definition upd (f : Z -> reg -> Z) (a : Z) (r : reg) (v : Z) : Z -> reg -> Z :=
  fun a' r' => if (a' =? a) && reg_eqb r' r then v else f a' r'.

(** A volatile read.  The line status, the receive buffer (read side of
    THR_DLAB) and the interrupt identification (read side of IIR_FCR) are
    driven by the device; the other registers read back what they hold. *)
Definition rd (a : Z) (r : reg) : M Z :=
  fun w =>
    match r with
    | UART_LSR =>
        let v := lsr_in (hw w) (lsr_n w) in
        Ret v {| hw := hw w; regs := regs w; lsr_n := S (lsr_n w);
                 rbr_n := rbr_n w; iir_n := iir_n w; tmr_n := tmr_n w;
                 log := EvRead a r v :: log w |}
    | UART_THR_DLAB =>
        let v := rbr_in (hw w) (rbr_n w) in
        Ret v {| hw := hw w; regs := regs w; lsr_n := lsr_n w;
                 rbr_n := S (rbr_n w); iir_n := iir_n w; tmr_n := tmr_n w;
                 log := EvRead a r v :: log w |}
    | UART_IIR_FCR =>
        let v := iir_in (hw w) (iir_n w) in
        Ret v {| hw := hw w; regs := regs w; lsr_n := lsr_n w;
                 rbr_n := rbr_n w; iir_n := S (iir_n w); tmr_n := tmr_n w;
                 log := EvRead a r v :: log w |}
    | _ =>
        let v := regs w a r in
        Ret v {| hw := hw w; regs := regs w; lsr_n := lsr_n w;
                 rbr_n := rbr_n w; iir_n := iir_n w; tmr_n := tmr_n w;
                 log := EvRead a r v :: log w |}
    end.

(** A volatile write. *)
Definition wr (a : Z) (r : reg) (v : Z) : M unit :=
  fun w =>
    Ret tt {| hw := hw w; regs := upd (regs w) a r v; lsr_n := lsr_n w;
              rbr_n := rbr_n w; iir_n := iir_n w; tmr_n := tmr_n w;
              log := EvWrite a r v :: log w |}.

(** Modelled from the spec: [get_tmr_us] of soc/timer.h, which is not part
    of this file: a read of the free-running microsecond counter, returned
    as a [u32] (the counter's low 32 bits). *)
Definition get_tmr_us : M Z :=
  fun w =>
    let v := U32.wrap (tmr_in (hw w) (tmr_n w)) in
    Ret v {| hw := hw w; regs := regs w; lsr_n := lsr_n w;
             rbr_n := rbr_n w; iir_n := iir_n w; tmr_n := S (tmr_n w);
             log := EvTimer v :: log w |}.

(** Modelled from the spec: [usleep] of soc/timer.h, the blocking delay;
    the model records the request. *)
Definition usleep (us : Z) : M unit :=
  fun w =>
    Ret tt {| hw := hw w; regs := regs w; lsr_n := lsr_n w;
              rbr_n := rbr_n w; iir_n := iir_n w; tmr_n := tmr_n w;
              log := EvSleep us :: log w |}.

(** Modelled from the spec: [clock_uart_use_src_div] of soc/clock.h, which
    selects a clock source for the baud rate and tells whether a divided
    source was chosen. *)
Definition clock_uart_use_src_div (idx baud : Z) : M bool :=
  fun w =>
    Ret (clk_in (hw w) idx baud)
        {| hw := hw w; regs := regs w; lsr_n := lsr_n w;
           rbr_n := rbr_n w; iir_n := iir_n w; tmr_n := tmr_n w;
           log := EvClock idx baud :: log w |}.

(** * The driver *)

(** UART A, B, C, D and E. *)
Definition _uart_base_offsets : list Z := [0; 0x40; 0x200; 0x300; 0x400].

(** [_uart_base_offsets[idx]]: indexing outside the five entries is
    undefined behaviour. *)
Definition base_offset (idx : Z) : option Z :=
  if idx <? 0 then None else nth_error _uart_base_offsets (Z.to_nat idx).

Section Driver.

Variable H : uart_h.

(** [(uart_t * )(UART_BASE + (u32)_uart_base_offsets[idx])] *)
Definition uart_at (idx : Z) : M Z :=
  match base_offset idx with
  | Some off => ret (U32.add (UART_BASE H) off)
  | None => fail (OutOfBounds idx)
  end.

(** [while (!(uart->UART_LSR & mask)) ;] *)
Fixpoint wait_lsr (fuel : nat) (uart mask : Z) : M unit :=
  match fuel with
  | O => out_of_fuel
  | S f =>
      lsr <- rd uart UART_LSR ;;
      if Z.land lsr mask =? 0 then wait_lsr f uart mask else ret tt
  end.

(** [while (uart->UART_LSR & UART_LSR_RDR) (void)uart->UART_THR_DLAB;] *)
Fixpoint drain_rbr (fuel : nat) (uart : Z) : M unit :=
  match fuel with
  | O => out_of_fuel
  | S f =>
      lsr <- rd uart UART_LSR ;;
      if Z.land lsr (UART_LSR_RDR H) =? 0 then ret tt
      else rd uart UART_THR_DLAB ;;; drain_rbr f uart
  end.

Definition uart_wait_xfer (fuel : nat) (idx which : Z) : M unit :=
  uart <- uart_at idx ;;
  (if Z.land (UART_TX_IDLE H) which =? 0 then ret tt
   else wait_lsr fuel uart (UART_LSR_TMTY H)) ;;;
  (if Z.land (UART_RX_RDYR H) which =? 0 then ret tt
   else drain_rbr fuel uart).

(** ** uart_init *)

(** [baud > 1000000 ? UART_LCR_STOP : 0] *)
Definition uart_lcr_stop (baud : Z) : Z :=
  if 1000000 <? baud then UART_LCR_STOP H else 0.

(** [clk_type ? ((8 * baud + 408000000) / (16 * baud)) : 1] *)
Definition uart_div (clk_type : bool) (baud : Z) : option Z :=
  if clk_type
  then U32.div (U32.add (U32.mul 8 baud) 408000000) (U32.mul 16 baud)
  else Some 1.

(** [3 * ((baud + 999999) / baud)] *)
Definition uart_settle_us (baud : Z) : option Z :=
  match U32.div (U32.add baud 999999) baud with
  | Some q => Some (U32.mul 3 q)
  | None => None
  end.

(** The value [uart_init] leaves in the line control register. *)
Definition uart_init_lcr (baud : Z) : Z :=
  Z.lor (uart_lcr_stop baud) (UART_LCR_WORD_LENGTH_8 H).

(** Whether a line control value asks for two stop bits. *)
Definition two_stop_bits (lcr : Z) : bool :=
  negb (Z.land lcr (UART_LCR_STOP H) =? 0).

Definition lift {A} (o : option A) : M A :=
  match o with
  | Some a => ret a
  | None => fail DivByZero
  end.

Definition uart_init (fuel : nat) (idx baud mode : Z) : M unit :=
  uart <- uart_at idx ;;
  (if Z.land mode (Z.lor (UART_MCR_CTS_EN H) (UART_MCR_DTR H)) =? 0
   then uart_wait_xfer fuel idx (UART_TX_IDLE H)
   else ret tt) ;;;
  clk_type <- clock_uart_use_src_div idx baud ;;
  div <- lift (uart_div clk_type baud) ;;
  wr uart UART_IER_DLAB 0 ;;;
  wr uart UART_LCR (Z.lor (UART_LCR_DLAB H) (UART_LCR_WORD_LENGTH_8 H)) ;;;
  wr uart UART_THR_DLAB (U32.to_u8 div) ;;;
  wr uart UART_IER_DLAB (U32.to_u8 (Z.shiftr div 8)) ;;;
  wr uart UART_LCR (uart_init_lcr baud) ;;;
  rd uart UART_SPR ;;;
  wr uart UART_IIR_FCR (UART_IIR_FCR_EN_FIFO H) ;;;
  rd uart UART_SPR ;;;
  usleep 20 ;;;
  wr uart UART_MCR 0 ;;;
  usleep 96 ;;;
  wr uart UART_IIR_FCR
     (Z.lor (Z.lor (UART_IIR_FCR_EN_FIFO H) (UART_IIR_FCR_TX_CLR H))
            (UART_IIR_FCR_RX_CLR H)) ;;;
  wr uart UART_MCR mode ;;;
  us <- lift (uart_settle_us baud) ;;
  usleep us ;;;
  uart_wait_xfer fuel idx (Z.lor (UART_TX_IDLE H) (UART_RX_RDYR H)).

(** ** uart_send *)

(** [for (u32 i = 0; i != len; i++)]; [buf] maps an index to the byte
    stored there. *)
Fixpoint send_loop (fuel : nat) (uart : Z) (buf : Z -> Z) (len i : Z) : M unit :=
  match fuel with
  | O => out_of_fuel
  | S f =>
      if i =? len then ret tt
      else
        wait_lsr f uart (UART_LSR_THRE H) ;;;
        wr uart UART_THR_DLAB (buf i) ;;;
        send_loop f uart buf len (U32.add i 1)
  end.

Definition uart_send (fuel : nat) (idx : Z) (buf : Z -> Z) (len : Z) : M unit :=
  uart <- uart_at idx ;;
  send_loop fuel uart buf len 0.

(** ** uart_recv *)

Definition store (buf : Z -> Z) (i v : Z) : Z -> Z :=
  fun j => if j =? i then v else buf j.

(** [while (!(uart->UART_LSR & UART_LSR_RDR)) if (timeout < get_tmr_us()) goto out;]
    The result is [false] when the loop left through [goto out]. *)
Fixpoint recv_wait (fuel : nat) (uart timeout : Z) : M bool :=
  match fuel with
  | O => out_of_fuel
  | S f =>
      lsr <- rd uart UART_LSR ;;
      if Z.land lsr (UART_LSR_RDR H) =? 0 then
        now <- get_tmr_us ;;
        if timeout <? now then ret false else recv_wait f uart timeout
      else ret true
  end.

(** [if (len && len <= i) break;] *)
Definition recv_full (len i : Z) : bool :=
  negb (len =? 0) && (len <=? i).

(** [for (i = 0; ; i++)]: the result is [i] and the buffer at [out]. *)
Fixpoint recv_loop (fuel : nat) (uart : Z) (buf : Z -> Z) (len i timeout : Z)
  : M (Z * (Z -> Z)) :=
  match fuel with
  | O => out_of_fuel
  | S f =>
      if recv_full len i then ret (i, buf)
      else
        ready <- recv_wait f uart timeout ;;
        if ready then
          v <- rd uart UART_THR_DLAB ;;
          now <- get_tmr_us ;;
          recv_loop f uart (store buf i (U32.to_u8 v)) len (U32.add i 1)
                    (U32.add now 250)
        else ret (i, buf)
  end.

(** The statements before the loop; the result is [manual_mode] and
    [timeout]. *)
Definition recv_begin (uart : Z) : M (bool * Z) :=
  mcr <- rd uart UART_MCR ;;
  let manual_mode := negb (Z.land mcr (UART_MCR_RTS H) =? 0) in
  now <- get_tmr_us ;;
  (if manual_mode then
     m <- rd uart UART_MCR ;;
     wr uart UART_MCR (Z.land m (U32.not (UART_MCR_RTS H)))
   else ret tt) ;;;
  ret (manual_mode, U32.add now 250).

(** The statements at [out:]. *)
Definition recv_end (uart : Z) (manual_mode : bool) : M unit :=
  if manual_mode then
    m <- rd uart UART_MCR ;;
    wr uart UART_MCR (Z.lor m (UART_MCR_RTS H))
  else ret tt.

Definition uart_recv (fuel : nat) (idx : Z) (buf : Z -> Z) (len : Z)
  : M (Z * (Z -> Z)) :=
  uart <- uart_at idx ;;
  st <- recv_begin uart ;;
  r <- recv_loop fuel uart buf len 0 (snd st) ;;
  recv_end uart (fst st) ;;;
  ret r.

(** ** uart_invert, uart_set_mode, uart_get_IIR, uart_set_IIR *)

Definition uart_invert (idx : Z) (enable : bool) (invert_mask : Z) : M unit :=
  uart <- uart_at idx ;;
  (if enable then
     v <- rd uart UART_IRDA_CSR ;;
     wr uart UART_IRDA_CSR (Z.lor v invert_mask)
   else
     v <- rd uart UART_IRDA_CSR ;;
     wr uart UART_IRDA_CSR (Z.land v (U32.not invert_mask))) ;;;
  rd uart UART_SPR ;;;
  ret tt.

Definition uart_set_mode (idx mode : Z) : M unit :=
  uart <- uart_at idx ;;
  wr uart UART_MCR mode ;;;
  rd uart UART_SPR ;;;
  ret tt.

Definition uart_get_IIR (idx : Z) : M Z :=
  uart <- uart_at idx ;;
  v <- rd uart UART_IIR_FCR ;;
  let iir := Z.land v (UART_IIR_INT_MASK H) in
  if Z.land iir (UART_IIR_NO_INT H) =? 0
  then ret (U32.add (Z.shiftr iir 1) 1)
  else ret 0.

Definition uart_set_IIR (idx : Z) : M unit :=
  uart <- uart_at idx ;;
  v <- rd uart UART_IER_DLAB ;;
  wr uart UART_IER_DLAB (Z.land v (U32.not (UART_IER_DLAB_IE_EORD H))) ;;;
  rd uart UART_SPR ;;;
  v' <- rd uart UART_IER_DLAB ;;
  wr uart UART_IER_DLAB (Z.lor v' (UART_IER_DLAB_IE_EORD H)) ;;;
  rd uart UART_SPR ;;;
  ret tt.

(** ** uart_empty_fifo *)

(** [while (tries < 10 && !(uart->UART_LSR & UART_LSR_TMTY)) { tries++; usleep(100); }]
    The result is the final [tries]. *)
Fixpoint fifo_wait_tx (fuel : nat) (uart tries : Z) : M Z :=
  match fuel with
  | O => out_of_fuel
  | S f =>
      if tries <? 10 then
        lsr <- rd uart UART_LSR ;;
        if Z.land lsr (UART_LSR_TMTY H) =? 0 then
          usleep 100 ;;; fifo_wait_tx f uart (U32.add tries 1)
        else ret tries
      else ret tries
  end.

(** [while (tries < 10 && (uart->UART_LSR & UART_LSR_RDR)) { tries++; usleep(100); }] *)
Fixpoint fifo_wait_rx (fuel : nat) (uart tries : Z) : M Z :=
  match fuel with
  | O => out_of_fuel
  | S f =>
      if tries <? 10 then
        lsr <- rd uart UART_LSR ;;
        if Z.land lsr (UART_LSR_RDR H) =? 0 then ret tries
        else usleep 100 ;;; fifo_wait_rx f uart (U32.add tries 1)
      else ret tries
  end.

(** The writes and delays before the polling. *)
Definition fifo_clear (uart which : Z) : M unit :=
  wr uart UART_MCR 0 ;;;
  rd uart UART_SPR ;;;
  usleep 96 ;;;
  wr uart UART_IIR_FCR (Z.lor (UART_IIR_FCR_EN_FIFO H) which) ;;;
  rd uart UART_SPR ;;;
  usleep 18.

(** The TX block; the result is [tries] after it. *)
Definition fifo_poll_tx (fuel : nat) (uart which tries : Z) : M Z :=
  if Z.land (UART_IIR_FCR_TX_CLR H) which =? 0 then ret tries
  else fifo_wait_tx fuel uart tries ;;; ret 0.

(** The RX block. *)
Definition fifo_poll_rx (fuel : nat) (uart which tries : Z) : M unit :=
  if Z.land (UART_IIR_FCR_RX_CLR H) which =? 0 then ret tt
  else fifo_wait_rx fuel uart tries ;;; ret tt.

Definition uart_empty_fifo (fuel : nat) (idx which : Z) : M unit :=
  uart <- uart_at idx ;;
  fifo_clear uart which ;;;
  tries <- fifo_poll_tx fuel uart which 0 ;;
  fifo_poll_rx fuel uart which tries.

End Driver.

(** * Concrete inputs *)

(** A header instance to run the model on: the layout of a 16550-style
    UART (line status bits 0, 5 and 6, modem control bits 0, 1 and 5). *)
Definition sample_h : uart_h :=
  {| UART_BASE := 0x70006000;
     UART_TX_IDLE := 0x1;
     UART_RX_RDYR := 0x2;
     UART_IER_DLAB_IE_EORD := 0x20;
     UART_LCR_WORD_LENGTH_8 := 0x3;
     UART_LCR_STOP := 0x4;
     UART_LCR_DLAB := 0x80;
     UART_LSR_RDR := 0x1;
     UART_LSR_THRE := 0x20;
     UART_LSR_TMTY := 0x40;
     UART_IIR_FCR_EN_FIFO := 0x1;
     UART_IIR_FCR_RX_CLR := 0x2;
     UART_IIR_FCR_TX_CLR := 0x4;
     UART_IIR_NO_INT := 0x1;
     UART_IIR_INT_MASK := 0xF;
     UART_MCR_DTR := 0x1;
     UART_MCR_RTS := 0x2;
     UART_MCR_CTS_EN := 0x20 |}.

(** The device of the concrete runs: transmitter idle, no byte
    waiting, no interrupt pending, a counter that advances by one at every
    read, a divided clock source. *)
Definition quiet_env : env :=
  {| lsr_in := fun _ => 0x60;
     rbr_in := fun _ => 0;
     iir_in := fun _ => 1;
     tmr_in := fun k => Z.of_nat k;
     clk_in := fun _ _ => true |}.

(** Every register holds [v]. *)
Definition quiet_world (v : Z) : world := boot quiet_env (fun _ _ => v).

(** A device with a byte always waiting: the k-th byte is k modulo 256. *)
Definition ready_env : env :=
  {| lsr_in := fun _ => 0x61;
     rbr_in := fun k => Z.of_nat k mod 256;
     iir_in := fun _ => 1;
     tmr_in := fun k => Z.of_nat k;
     clk_in := fun _ _ => true |}.

Definition ready_world (v : Z) : world := boot ready_env (fun _ _ => v).

(** A silent device whose microsecond counter stands 251 below 2^32 at
    the first read and advances by one at every read. *)
Definition wrap_env : env :=
  {| lsr_in := fun _ => 0x60;
     rbr_in := fun _ => 0;
     iir_in := fun _ => 1;
     tmr_in := fun k => Z.of_nat k + 4294967045;
     clk_in := fun _ _ => true |}.

Definition wrap_world : world := boot wrap_env (fun _ _ => 0).

(** A device that never drains: a byte always waiting, the transmitter
    never idle. *)
Definition stuck_env : env :=
  {| lsr_in := fun _ => 0x01;
     rbr_in := fun _ => 0;
     iir_in := fun _ => 1;
     tmr_in := fun k => Z.of_nat k;
     clk_in := fun _ _ => true |}.

Definition stuck_world : world := boot stuck_env (fun _ _ => 0).

(** A device that presents two bytes and then falls silent. *)
Definition burst_env : env :=
  {| lsr_in := fun k => if (k <? 2)%nat then 0x61 else 0x60;
     rbr_in := fun k => Z.of_nat k + 65;
     iir_in := fun _ => 1;
     tmr_in := fun k => Z.of_nat k;
     clk_in := fun _ _ => true |}.

Definition burst_world : world := boot burst_env (fun _ _ => 0).

(** * Views of the log *)

(** The register writes of a log, and everything in it that is not a
    register read (writes, delays, timer reads, clock calls). *)
Definition writes (l : list event) : list event := filter is_write l.
Definition actions (l : list event) : list event :=
  filter (fun e => negb (is_read e)) l.

(** The delays of a log, in microseconds. *)
Definition sleeps (l : list event) : list Z :=
  flat_map (fun e => match e with EvSleep us => [us] | _ => [] end) l.

(** The writes by which [uart_send] has passed [n] bytes of [buf], from
    index [i] on, to the transmit holding register, the oldest first. *)
Definition sent (uart : Z) (buf : Z -> Z) (i : Z) (n : nat) : list event :=
  map (fun k => EvWrite uart UART_THR_DLAB (buf (i + Z.of_nat k))) (seq 0 n).

(** * Rounding lemmas *)

Lemma Qfloor_div (n d : Z) :
  0 < d -> Qfloor (inject_Z n / inject_Z d) = n / d.
Proof.
  intros Hd. destruct d as [|p|p]; try lia.
  rewrite (Qfloor_comp _ (n # p)) by (symmetry; apply Qmake_Qdiv).
  reflexivity.
Qed.

Lemma round_half_up_div (n d : Z) :
  0 < d -> round_half_up (inject_Z n / inject_Z d) = (2 * n + d) / (2 * d).
Proof.
  intros Hd. unfold round_half_up. destruct d as [|p|p]; try lia.
  rewrite (Qfloor_comp _ ((2 * n + Z.pos p) # (2 * p))).
  - reflexivity.
  - rewrite <- Qmake_Qdiv. unfold Qeq, Qplus. cbn [Qnum Qden].
    rewrite !Pos2Z.inj_mul. ring.
Qed.

Lemma ceil_div (n d : Z) :
  0 < d -> ceil (inject_Z n / inject_Z d) = (n + d - 1) / d.
Proof.
  intros Hd. unfold ceil, Qceiling.
  rewrite (Qfloor_comp _ (inject_Z (- n) / inject_Z d)).
  - rewrite Qfloor_div by lia.
    pose proof (Z.div_mod (- n) d ltac:(lia)) as E.
    pose proof (Z.mod_pos_bound (- n) d Hd) as B.
    apply Z.div_unique with (r := d - 1 - (- n) mod d); lia.
  - rewrite inject_Z_opp. unfold Qdiv. ring.
Qed.

(** [round_half_up x] is the one integer within a half of [x], the upper
    one when there are two. *)
Lemma round_half_up_nearest (x : Q) :
  (inject_Z (round_half_up x) - (1 # 2) <= x)%Q /\
  (x < inject_Z (round_half_up x) + (1 # 2))%Q.
Proof.
  unfold round_half_up.
  pose proof (Qfloor_le (x + (1 # 2))) as Hl.
  pose proof (Qlt_floor (x + (1 # 2))) as Hu.
  rewrite inject_Z_plus in Hu. change (inject_Z 1) with 1%Q in Hu.
  split; lra.
Qed.

Lemma ceil_least (x : Q) :
  (x <= inject_Z (ceil x))%Q /\ (inject_Z (ceil x) - 1 < x)%Q.
Proof.
  unfold ceil.
  pose proof (Qle_ceiling x) as Hl. pose proof (Qceiling_lt x) as Hu.
  unfold Z.sub in Hu. rewrite inject_Z_plus, inject_Z_opp in Hu.
  change (inject_Z 1) with 1%Q in Hu.
  split; lra.
Qed.

(** * Machine arithmetic lemmas *)

Lemma wrap_small (x : Z) : 0 <= x < U32.modulus -> U32.wrap x = x.
Proof. intros Hx. unfold U32.wrap. apply Z.mod_small. exact Hx. Qed.

Lemma wrap_range (x : Z) : 0 <= U32.wrap x < U32.modulus.
Proof. unfold U32.wrap. apply Z.mod_pos_bound. reflexivity. Qed.

(** * Bit lemmas *)

Lemma reg_eqb_spec (a b : reg) : reflect (a = b) (reg_eqb a b).
Proof. destruct a, b; simpl; constructor; congruence. Qed.

Lemma not_testbit (m n : Z) :
  0 <= n -> Z.testbit (U32.not m) n = (n <? 32) && negb (Z.testbit m n).
Proof.
  intros Hn. unfold U32.not, U32.wrap, U32.modulus.
  rewrite Z.testbit_mod_pow2 by lia. rewrite Z.lnot_spec by lia. reflexivity.
Qed.

Lemma land_not_clear (v m : Z) : Z.land (Z.land v (U32.not m)) m = 0.
Proof.
  apply Z.bits_inj'. intros n Hn.
  rewrite !Z.land_spec, not_testbit, Z.bits_0 by lia.
  destruct (Z.testbit v n), (n <? 32), (Z.testbit m n); reflexivity.
Qed.

Lemma land_lor_set (v m : Z) : Z.land (Z.lor v m) m = m.
Proof.
  apply Z.bits_inj'. intros n Hn.
  rewrite Z.land_spec, Z.lor_spec.
  destruct (Z.testbit v n), (Z.testbit m n); reflexivity.
Qed.

Lemma lor_then_clear (v m : Z) :
  Z.land (Z.lor v m) (U32.not m) = Z.land v (U32.not m).
Proof.
  apply Z.bits_inj'. intros n Hn.
  rewrite !Z.land_spec, Z.lor_spec, not_testbit by lia.
  destruct (Z.testbit v n), (n <? 32), (Z.testbit m n); reflexivity.
Qed.

Lemma u32_high_bits (v n : Z) : U32.in_range v -> 32 <= n -> Z.testbit v n = false.
Proof.
  intros Hv Hn. rewrite <- (Z.mod_small v (2 ^ 32)) by exact Hv.
  apply Z.mod_pow2_bits_high. lia.
Qed.

Lemma clear_id_iff (v m : Z) :
  U32.in_range v -> Z.land v (U32.not m) = v <-> Z.land v m = 0.
Proof.
  intros Hv. split; intros E; apply Z.bits_inj'; intros n Hn.
  - assert (B : Z.testbit (Z.land v (U32.not m)) n = Z.testbit v n)
      by (rewrite E; reflexivity).
    rewrite Z.land_spec, not_testbit in B by lia.
    rewrite Z.bits_0, Z.land_spec.
    destruct (Z.testbit v n), (n <? 32), (Z.testbit m n);
      simpl in *; congruence.
  - assert (B : Z.testbit (Z.land v m) n = false)
      by (rewrite E; apply Z.bits_0).
    rewrite Z.land_spec in B. rewrite Z.land_spec, not_testbit by lia.
    destruct (Z.ltb_spec n 32) as [L|L].
    + destruct (Z.testbit v n), (Z.testbit m n); simpl in *; congruence.
    + rewrite (u32_high_bits v n Hv L). reflexivity.
Qed.

(** * The port table *)

Lemma base_offset_in_range (idx : Z) :
  0 <= idx < 5 ->
  base_offset idx = Some (nth (Z.to_nat idx) _uart_base_offsets 0).
Proof.
  intros Hi. unfold base_offset.
  destruct (Z.ltb_spec idx 0) as [L|_]; [lia|].
  assert (C : idx = 0 \/ idx = 1 \/ idx = 2 \/ idx = 3 \/ idx = 4) by lia.
  destruct C as [-> | [-> | [-> | [-> | ->]]]]; reflexivity.
Qed.

Lemma base_offset_out_of_range (idx : Z) :
  ~ 0 <= idx < 5 -> base_offset idx = None.
Proof.
  intros Hi. unfold base_offset.
  destruct (Z.ltb_spec idx 0) as [L|L]; [reflexivity|].
  apply nth_error_None. simpl. lia.
Qed.

Lemma uart_at_in_range (H : uart_h) (idx : Z) (w : world) :
  0 <= idx < 5 ->
  exists off, base_offset idx = Some off /\
              uart_at H idx w = Ret (U32.add (UART_BASE H) off) w.
Proof.
  intros Hi. unfold uart_at. rewrite (base_offset_in_range idx Hi).
  eexists. split; reflexivity.
Qed.

Lemma uart_at_out_of_range (H : uart_h) (idx : Z) (w : world) :
  ~ 0 <= idx < 5 -> uart_at H idx w = Fault (OutOfBounds idx).
Proof.
  intros Hi. unfold uart_at. rewrite (base_offset_out_of_range idx Hi).
  reflexivity.
Qed.

(** C9, as amended: no operation checks its port index; each one indexes
    the offset table with the index it is given as its first step.  For an
    index in [0,5) the lookup yields the entry of
    {0, 0x40, 0x200, 0x300, 0x400} at that index; an index of 5 or more
    reaches the lookup in every operation, which is then out of the
    table's bounds. *)
Theorem port_index_unchecked (H : uart_h) (idx : Z) :
  (0 <= idx < 5 ->
   base_offset idx = Some (nth (Z.to_nat idx) [0; 0x40; 0x200; 0x300; 0x400] 0)) /\
  (5 <= idx ->
   forall (fuel : nat) (baud mode which len mask : Z) (enable : bool)
          (buf : Z -> Z) (w : world),
     uart_init H fuel idx baud mode w = Fault (OutOfBounds idx) /\
     uart_wait_xfer H fuel idx which w = Fault (OutOfBounds idx) /\
     uart_send H fuel idx buf len w = Fault (OutOfBounds idx) /\
     uart_recv H fuel idx buf len w = Fault (OutOfBounds idx) /\
     uart_invert H idx enable mask w = Fault (OutOfBounds idx) /\
     uart_set_mode H idx mode w = Fault (OutOfBounds idx) /\
     uart_get_IIR H idx w = Fault (OutOfBounds idx) /\
     uart_set_IIR H idx w = Fault (OutOfBounds idx) /\
     uart_empty_fifo H fuel idx which w = Fault (OutOfBounds idx)).
Proof.
  split.
  - apply base_offset_in_range.
  - intros Hi fuel baud mode which len mask enable buf w.
    assert (E : forall w', uart_at H idx w' = Fault (OutOfBounds idx))
      by (intros w'; apply uart_at_out_of_range; lia).
    unfold uart_init, uart_wait_xfer, uart_send, uart_recv, uart_invert,
      uart_set_mode, uart_get_IIR, uart_set_IIR, uart_empty_fifo, bind.
    rewrite !E. repeat split; reflexivity.
Qed.

Lemma port_index_unchecked_witness :
  base_offset 2 = Some 0x200 /\
  uart_set_mode sample_h 5 0 (quiet_world 0) = Fault (OutOfBounds 5).
Proof.
  split.
  - apply (proj1 (port_index_unchecked sample_h 2)). lia.
  - apply (proj2 (port_index_unchecked sample_h 5) ltac:(lia)
             O 0 0 0 0 0 false (fun _ => 0) (quiet_world 0)).
Defined.

(** C9, as stated, fails: uart_set_mode called with index 5 is not turned
    away; it indexes the five-entry table with 5. *)
Lemma uart_set_mode_index_5_reaches_lookup :
  5 >= 5 /\
  base_offset 5 = None /\
  uart_set_mode sample_h 5 0 (quiet_world 0) = Fault (OutOfBounds 5).
Proof. repeat split; try reflexivity. lia. Qed.

(** * uart_invert *)

Lemma uart_invert_run (H : uart_h) (idx off : Z) (enable : bool) (mask : Z)
      (w : world) :
  base_offset idx = Some off ->
  let uart := U32.add (UART_BASE H) off in
  let v := regs w uart UART_IRDA_CSR in
  let v' := if enable then Z.lor v mask else Z.land v (U32.not mask) in
  exists w',
    uart_invert H idx enable mask w = Ret tt w' /\
    regs w' = upd (regs w) uart UART_IRDA_CSR v' /\
    hw w' = hw w /\
    log w' = EvRead uart UART_SPR (upd (regs w) uart UART_IRDA_CSR v' uart UART_SPR)
             :: EvWrite uart UART_IRDA_CSR v'
             :: EvRead uart UART_IRDA_CSR v :: log w.
Proof.
  intros Hoff uart v v'. unfold uart_invert, uart_at, bind. rewrite Hoff.
  destruct enable; eexists; repeat split; reflexivity.
Qed.

Lemma upd_same (f : Z -> reg -> Z) (a : Z) (r : reg) (v : Z) :
  upd f a r v a r = v.
Proof.
  unfold upd. rewrite Z.eqb_refl. destruct (reg_eqb_spec r r); [reflexivity|congruence].
Qed.

Lemma upd_other (f : Z -> reg -> Z) (a a' : Z) (r r' : reg) (v : Z) :
  (a', r') <> (a, r) -> upd f a r v a' r' = f a' r'.
Proof.
  intros Hne. unfold upd.
  destruct (Z.eqb_spec a' a) as [->|]; [|reflexivity].
  destruct (reg_eqb_spec r' r) as [->|]; [congruence|reflexivity].
Qed.

(** C10: uart_invert changes no bit of IRDA_CSR outside the mask, and it
    writes no other register: every other register of every block holds
    what it held, and the only write the call logs is the one to IRDA_CSR
    of its own port. *)
Theorem uart_invert_frame (H : uart_h) (idx : Z) (enable : bool) (mask : Z)
        (w : world) :
  0 <= idx < 5 ->
  exists uart w',
    uart_at H idx w = Ret uart w /\
    uart_invert H idx enable mask w = Ret tt w' /\
    (forall n, 0 <= n < 32 -> Z.testbit mask n = false ->
       Z.testbit (regs w' uart UART_IRDA_CSR) n
       = Z.testbit (regs w uart UART_IRDA_CSR) n) /\
    (forall a r, (a, r) <> (uart, UART_IRDA_CSR) -> regs w' a r = regs w a r) /\
    (forall a r v, In (EvWrite a r v) (log w') ->
       In (EvWrite a r v) (log w) \/ (a = uart /\ r = UART_IRDA_CSR)).
Proof.
  intros Hi. destruct (uart_at_in_range H idx w Hi) as (off & Hoff & Hat).
  destruct (uart_invert_run H idx off enable mask w Hoff)
    as (w' & Hrun & Hregs & _ & Hlog).
  exists (U32.add (UART_BASE H) off), w'. split; [exact Hat|].
  split; [exact Hrun|]. split; [|split].
  - intros n Hn Hm. rewrite Hregs, upd_same.
    destruct enable.
    + rewrite Z.lor_spec, Hm. apply orb_false_r.
    + rewrite Z.land_spec, not_testbit, Hm by lia.
      destruct (Z.ltb_spec n 32); [|lia]. apply andb_true_r.
  - intros a r Hne. rewrite Hregs. apply upd_other. exact Hne.
  - intros a r v Hin. rewrite Hlog in Hin.
    destruct Hin as [E | [E | [E | Hin]]]; try discriminate.
    + inversion E. right. split; reflexivity.
    + left. exact Hin.
Qed.

Lemma uart_invert_frame_witness :
  exists uart w',
    uart_at sample_h 1 (quiet_world 5) = Ret uart (quiet_world 5) /\
    uart_invert sample_h 1 true 2 (quiet_world 5) = Ret tt w' /\
    (forall n, 0 <= n < 32 -> Z.testbit 2 n = false ->
       Z.testbit (regs w' uart UART_IRDA_CSR) n
       = Z.testbit (regs (quiet_world 5) uart UART_IRDA_CSR) n) /\
    (forall a r, (a, r) <> (uart, UART_IRDA_CSR) ->
       regs w' a r = regs (quiet_world 5) a r) /\
    (forall a r v, In (EvWrite a r v) (log w') ->
       In (EvWrite a r v) (log (quiet_world 5)) \/
       (a = uart /\ r = UART_IRDA_CSR)).
Proof. apply (uart_invert_frame sample_h 1 true 2 (quiet_world 5)). lia. Defined.

(** C5, as amended: enabling and then disabling the inversion of the same
    mask leaves IRDA_CSR with the bits of the mask cleared; that is the
    value before the first call exactly when none of those bits was set
    before. *)
Theorem uart_invert_enable_disable (H : uart_h) (idx mask : Z) (w : world) :
  0 <= idx < 5 ->
  exists uart w1 w2,
    uart_at H idx w = Ret uart w /\
    uart_invert H idx true mask w = Ret tt w1 /\
    uart_invert H idx false mask w1 = Ret tt w2 /\
    regs w2 uart UART_IRDA_CSR
    = Z.land (regs w uart UART_IRDA_CSR) (U32.not mask) /\
    (U32.in_range (regs w uart UART_IRDA_CSR) ->
     (regs w2 uart UART_IRDA_CSR = regs w uart UART_IRDA_CSR
      <-> Z.land (regs w uart UART_IRDA_CSR) mask = 0)).
Proof.
  intros Hi. destruct (uart_at_in_range H idx w Hi) as (off & Hoff & Hat).
  destruct (uart_invert_run H idx off true mask w Hoff)
    as (w1 & Hrun1 & Hregs1 & _ & _).
  destruct (uart_invert_run H idx off false mask w1 Hoff)
    as (w2 & Hrun2 & Hregs2 & _ & _).
  exists (U32.add (UART_BASE H) off), w1, w2.
  assert (E : regs w2 (U32.add (UART_BASE H) off) UART_IRDA_CSR
              = Z.land (regs w (U32.add (UART_BASE H) off) UART_IRDA_CSR)
                       (U32.not mask)).
  { rewrite Hregs2, upd_same, Hregs1, upd_same. apply lor_then_clear. }
  repeat split; try assumption.
  - rewrite E. apply clear_id_iff. assumption.
  - rewrite E. apply clear_id_iff. assumption.
Qed.

Lemma uart_invert_enable_disable_witness :
  exists uart w1 w2,
    uart_at sample_h 0 (quiet_world 4) = Ret uart (quiet_world 4) /\
    uart_invert sample_h 0 true 3 (quiet_world 4) = Ret tt w1 /\
    uart_invert sample_h 0 false 3 w1 = Ret tt w2 /\
    regs w2 uart UART_IRDA_CSR
    = Z.land (regs (quiet_world 4) uart UART_IRDA_CSR) (U32.not 3) /\
    (U32.in_range (regs (quiet_world 4) uart UART_IRDA_CSR) ->
     (regs w2 uart UART_IRDA_CSR = regs (quiet_world 4) uart UART_IRDA_CSR
      <-> Z.land (regs (quiet_world 4) uart UART_IRDA_CSR) 3 = 0)).
Proof. apply (uart_invert_enable_disable sample_h 0 3 (quiet_world 4)). lia. Defined.

(** C5, as stated, fails when a bit of the mask is already set: with
    IRDA_CSR = 1 and mask 1 the register reads 1 before the two calls and
    0 after them. *)
Lemma uart_invert_not_restored :
  exists w1 w2,
    uart_invert sample_h 0 true 1 (quiet_world 1) = Ret tt w1 /\
    uart_invert sample_h 0 false 1 w1 = Ret tt w2 /\
    regs (quiet_world 1) 0x70006000 UART_IRDA_CSR = 1 /\
    regs w2 0x70006000 UART_IRDA_CSR = 0 /\
    regs w2 0x70006000 UART_IRDA_CSR
    <> regs (quiet_world 1) 0x70006000 UART_IRDA_CSR.
Proof.
  eexists. eexists.
  split; [vm_compute; reflexivity|]. split; [vm_compute; reflexivity|].
  split; [reflexivity|]. split; [vm_compute; reflexivity|].
  vm_compute. discriminate.
Qed.

(** * uart_empty_fifo *)

Lemma fifo_wait_tx_bounded (H : uart_h) (uart : Z) :
  forall (fuel : nat) (tries : Z) (w : world),
    0 <= tries <= 10 ->
    (Z.to_nat (10 - tries) < fuel)%nat ->
    exists t' w',
      fifo_wait_tx H fuel uart tries w = Ret t' w' /\
      (lsr_n w' <= lsr_n w + Z.to_nat (10 - tries))%nat.
Proof.
  induction fuel as [|f IH]; intros tries w Ht Hf; [lia|].
  cbn [fifo_wait_tx].
  destruct (Z.ltb_spec tries 10) as [L|L].
  - unfold bind. cbn [rd].
    destruct (Z.land (lsr_in (hw w) (lsr_n w)) (UART_LSR_TMTY H) =? 0).
    + cbn [usleep].
      assert (E : U32.add tries 1 = tries + 1)
        by (apply wrap_small; unfold U32.modulus; lia).
      rewrite E.
      match goal with |- context [fifo_wait_tx H f uart (tries + 1) ?w1] =>
        destruct (IH (tries + 1) w1 ltac:(lia) ltac:(lia)) as (t' & w' & R & B)
      end.
      exists t', w'. split; [exact R|]. cbn [lsr_n] in B. lia.
    + eexists. eexists. split; [reflexivity|]. cbn [lsr_n]. lia.
  - eexists. eexists. split; [reflexivity|]. lia.
Qed.

Lemma fifo_wait_rx_bounded (H : uart_h) (uart : Z) :
  forall (fuel : nat) (tries : Z) (w : world),
    0 <= tries <= 10 ->
    (Z.to_nat (10 - tries) < fuel)%nat ->
    exists t' w',
      fifo_wait_rx H fuel uart tries w = Ret t' w' /\
      (lsr_n w' <= lsr_n w + Z.to_nat (10 - tries))%nat.
Proof.
  induction fuel as [|f IH]; intros tries w Ht Hf; [lia|].
  cbn [fifo_wait_rx].
  destruct (Z.ltb_spec tries 10) as [L|L].
  - unfold bind. cbn [rd].
    destruct (Z.land (lsr_in (hw w) (lsr_n w)) (UART_LSR_RDR H) =? 0).
    + eexists. eexists. split; [reflexivity|]. cbn [lsr_n]. lia.
    + cbn [usleep].
      assert (E : U32.add tries 1 = tries + 1)
        by (apply wrap_small; unfold U32.modulus; lia).
      rewrite E.
      match goal with |- context [fifo_wait_rx H f uart (tries + 1) ?w1] =>
        destruct (IH (tries + 1) w1 ltac:(lia) ltac:(lia)) as (t' & w' & R & B)
      end.
      exists t', w'. split; [exact R|]. cbn [lsr_n] in B. lia.
  - eexists. eexists. split; [reflexivity|]. lia.
Qed.

Lemma fifo_clear_returns (H : uart_h) (uart which : Z) (w : world) :
  exists w', fifo_clear H uart which w = Ret tt w' /\ lsr_n w' = lsr_n w.
Proof. eexists. split; reflexivity. Qed.

(** C7: whatever the line status register shows, uart_empty_fifo
    returns (any fuel above 10 is enough), and it polls the line status at
    most 10 times in the TX block and at most 10 times in the RX block,
    none at all in a block that was not requested; the RX block starts
    from a count of zero again, and the call returns nothing that tells
    an exhausted count from a drained FIFO. *)
Theorem uart_empty_fifo_bounded (H : uart_h) (fuel : nat) (idx which : Z)
        (w : world) :
  0 <= idx < 5 ->
  (10 < fuel)%nat ->
  exists uart w1 w2 w3 tries,
    uart_at H idx w = Ret uart w /\
    fifo_clear H uart which w = Ret tt w1 /\
    fifo_poll_tx H fuel uart which 0 w1 = Ret tries w2 /\
    fifo_poll_rx H fuel uart which tries w2 = Ret tt w3 /\
    uart_empty_fifo H fuel idx which w = Ret tt w3 /\
    tries = 0 /\
    lsr_n w1 = lsr_n w /\
    (lsr_n w2 <= lsr_n w1 + 10)%nat /\
    (lsr_n w3 <= lsr_n w2 + 10)%nat /\
    (Z.land (UART_IIR_FCR_TX_CLR H) which = 0 -> lsr_n w2 = lsr_n w1) /\
    (Z.land (UART_IIR_FCR_RX_CLR H) which = 0 -> lsr_n w3 = lsr_n w2).
Proof.
  intros Hi Hf. destruct (uart_at_in_range H idx w Hi) as (off & Hoff & Hat).
  set (uart := U32.add (UART_BASE H) off) in *.
  destruct (fifo_clear_returns H uart which w) as (w1 & R1 & N1).
  assert (TX : exists w2, fifo_poll_tx H fuel uart which 0 w1 = Ret 0 w2 /\
                          (lsr_n w2 <= lsr_n w1 + 10)%nat /\
                          (Z.land (UART_IIR_FCR_TX_CLR H) which = 0 ->
                           lsr_n w2 = lsr_n w1)).
  { unfold fifo_poll_tx.
    destruct (Z.eqb_spec (Z.land (UART_IIR_FCR_TX_CLR H) which) 0) as [E|E].
    - exists w1. split; [reflexivity|]. split; [lia|reflexivity].
    - destruct (fifo_wait_tx_bounded H uart fuel 0 w1 ltac:(lia) ltac:(simpl; lia))
        as (t' & w2 & R & B).
      exists w2. unfold bind. rewrite R. split; [reflexivity|].
      split; [simpl in B; lia | congruence]. }
  destruct TX as (w2 & R2 & B2 & Z2).
  assert (RX : exists w3, fifo_poll_rx H fuel uart which 0 w2 = Ret tt w3 /\
                          (lsr_n w3 <= lsr_n w2 + 10)%nat /\
                          (Z.land (UART_IIR_FCR_RX_CLR H) which = 0 ->
                           lsr_n w3 = lsr_n w2)).
  { unfold fifo_poll_rx.
    destruct (Z.eqb_spec (Z.land (UART_IIR_FCR_RX_CLR H) which) 0) as [E|E].
    - exists w2. split; [reflexivity|]. split; [lia|reflexivity].
    - destruct (fifo_wait_rx_bounded H uart fuel 0 w2 ltac:(lia) ltac:(simpl; lia))
        as (t' & w3 & R & B).
      exists w3. unfold bind. rewrite R. split; [reflexivity|].
      split; [simpl in B; lia | congruence]. }
  destruct RX as (w3 & R3 & B3 & Z3).
  exists uart, w1, w2, w3, 0.
  repeat split; try assumption.
  unfold uart_empty_fifo, bind. rewrite Hat, R1, R2. exact R3.
Qed.

Lemma uart_empty_fifo_bounded_witness :
  exists w',
    uart_empty_fifo sample_h 11 0 6 stuck_world = Ret tt w' /\
    (lsr_n w' <= lsr_n stuck_world + 20)%nat.
Proof.
  destruct (uart_empty_fifo_bounded sample_h 11 0 6 stuck_world)
    as (uart & w1 & w2 & w3 & tries & _ & _ & _ & _ & R & _ & N1 & N2 & N3 & _).
  - lia.
  - lia.
  - exists w3. split; [exact R|lia].
Defined.

(** Against a device that never drains, both blocks use all ten polls. *)
Example uart_empty_fifo_stuck :
  exists w',
    uart_empty_fifo sample_h 11 0 6 stuck_world = Ret tt w' /\
    lsr_n w' = 20%nat.
Proof. eexists. split; vm_compute; reflexivity. Qed.

(** * uart_recv *)

(** Run the register and timer accesses at the head of the goal. *)
Ltac prims :=
  unfold bind;
  repeat (progress
    cbn beta iota zeta delta
        [rd wr get_tmr_us usleep ret hw regs lsr_n rbr_n iir_n tmr_n log]).
Ltac prims_in R :=
  unfold bind in R;
  repeat (progress
    cbn beta iota zeta delta
        [rd wr get_tmr_us usleep ret hw regs lsr_n rbr_n iir_n tmr_n log] in R).

Lemma recv_begin_run (H : uart_h) (uart : Z) (w : world) :
  let mcr := regs w uart UART_MCR in
  let manual := negb (Z.land mcr (UART_MCR_RTS H) =? 0) in
  let t0 := U32.wrap (tmr_in (hw w) (tmr_n w)) in
  exists w1,
    recv_begin H uart w = Ret (manual, U32.add t0 250) w1 /\
    hw w1 = hw w /\ lsr_n w1 = lsr_n w /\ rbr_n w1 = rbr_n w /\
    tmr_n w1 = S (tmr_n w) /\
    regs w1 = (if manual
               then upd (regs w) uart UART_MCR (Z.land mcr (U32.not (UART_MCR_RTS H)))
               else regs w) /\
    log w1 = (if manual
              then [EvWrite uart UART_MCR (Z.land mcr (U32.not (UART_MCR_RTS H)));
                    EvRead uart UART_MCR mcr]
              else [])
             ++ EvTimer t0 :: EvRead uart UART_MCR mcr :: log w.
Proof.
  intros mcr manual t0. unfold recv_begin, bind. cbn [rd get_tmr_us].
  fold mcr. fold manual. fold t0.
  destruct manual; eexists; repeat split; reflexivity.
Qed.

Lemma recv_end_run (H : uart_h) (uart : Z) (manual : bool) (w : world) :
  let mcr := regs w uart UART_MCR in
  exists w',
    recv_end H uart manual w = Ret tt w' /\
    hw w' = hw w /\ lsr_n w' = lsr_n w /\ rbr_n w' = rbr_n w /\
    tmr_n w' = tmr_n w /\
    regs w' = (if manual
               then upd (regs w) uart UART_MCR (Z.lor mcr (UART_MCR_RTS H))
               else regs w) /\
    log w' = (if manual
              then [EvWrite uart UART_MCR (Z.lor mcr (UART_MCR_RTS H));
                    EvRead uart UART_MCR mcr]
              else [])
             ++ log w.
Proof.
  intros mcr. unfold recv_end, bind.
  destruct manual; eexists; repeat split; reflexivity.
Qed.

(** The wait loop and the receive loop read; they write no register. *)
Lemma recv_wait_frame (H : uart_h) (uart timeout : Z) :
  forall (fuel : nat) (w : world) (b : bool) (w' : world),
    recv_wait H fuel uart timeout w = Ret b w' ->
    regs w' = regs w /\ hw w' = hw w /\
    exists evs, log w' = evs ++ log w /\ existsb is_write evs = false.
Proof.
  induction fuel as [|f IH]; intros w b w' R; [discriminate|].
  cbn [recv_wait] in R. prims_in R.
  destruct (Z.land (lsr_in (hw w) (lsr_n w)) (UART_LSR_RDR H) =? 0).
  - prims_in R.
    destruct (timeout <? U32.wrap (tmr_in (hw w) (tmr_n w))).
    + inversion R; subst. cbn [regs hw log].
      split; [reflexivity|]. split; [reflexivity|].
      exists [EvTimer (U32.wrap (tmr_in (hw w) (tmr_n w)));
              EvRead uart UART_LSR (lsr_in (hw w) (lsr_n w))].
      split; reflexivity.
    + apply IH in R. cbn [regs hw log] in R.
      destruct R as (Rr & Rh & evs & Rl & Rw).
      split; [exact Rr|]. split; [exact Rh|].
      exists (evs ++ [EvTimer (U32.wrap (tmr_in (hw w) (tmr_n w)));
                      EvRead uart UART_LSR (lsr_in (hw w) (lsr_n w))]).
      split.
      * rewrite Rl, <- app_assoc. reflexivity.
      * rewrite existsb_app, Rw. reflexivity.
  - inversion R; subst. cbn [regs hw log].
    split; [reflexivity|]. split; [reflexivity|].
    exists [EvRead uart UART_LSR (lsr_in (hw w) (lsr_n w))].
    split; reflexivity.
Qed.

Lemma recv_loop_frame (H : uart_h) (uart len : Z) :
  forall (fuel : nat) (buf : Z -> Z) (i timeout : Z) (w : world)
         (r : Z * (Z -> Z)) (w' : world),
    recv_loop H fuel uart buf len i timeout w = Ret r w' ->
    regs w' = regs w /\ hw w' = hw w /\
    exists evs, log w' = evs ++ log w /\ existsb is_write evs = false.
Proof.
  induction fuel as [|f IH]; intros buf i timeout w r w' R; [discriminate|].
  cbn [recv_loop] in R.
  destruct (recv_full len i).
  - inversion R; subst. split; [reflexivity|]. split; [reflexivity|].
    exists []. split; reflexivity.
  - unfold bind in R.
    destruct (recv_wait H f uart timeout w) as [b w1| |] eqn:W; try discriminate.
    apply recv_wait_frame in W. destruct W as (Wr & Wh & evs1 & Wl & Ww).
    destruct b.
    + prims_in R. apply IH in R. cbn [regs hw log] in R.
      destruct R as (Rr & Rh & evs & Rl & Rw).
      split; [congruence|]. split; [congruence|].
      exists (evs ++ [EvTimer (U32.wrap (tmr_in (hw w1) (tmr_n w1)));
                      EvRead uart UART_THR_DLAB (rbr_in (hw w1) (rbr_n w1))]
                  ++ evs1).
      split.
      * rewrite Rl, Wl, <- !app_assoc. reflexivity.
      * rewrite !existsb_app, Rw, Ww. reflexivity.
    + inversion R; subst. split; [exact Wr|]. split; [exact Wh|].
      exists evs1. split; assumption.
Qed.

(** With a byte always waiting the loop runs [len - i] more times. *)
Lemma recv_loop_ready (H : uart_h) (uart len : Z) :
  0 < len < U32.modulus ->
  forall (fuel : nat) (buf : Z -> Z) (i timeout : Z) (w : world),
    0 <= i <= len ->
    (Z.to_nat (len - i) < fuel)%nat ->
    (forall k, (lsr_n w <= k)%nat ->
               Z.land (lsr_in (hw w) k) (UART_LSR_RDR H) <> 0) ->
    exists buf' w',
      recv_loop H fuel uart buf len i timeout w = Ret (len, buf') w' /\
      (forall j, i <= j < len ->
         buf' j = U32.to_u8 (rbr_in (hw w) (rbr_n w + Z.to_nat (j - i)))) /\
      (forall j, j < i -> buf' j = buf j).
Proof.
  intros Hlen. induction fuel as [|f IH]; intros buf i timeout w Hi Hf Hrdy; [lia|].
  cbn [recv_loop]. unfold recv_full.
  destruct (Z.eqb_spec len 0) as [E|_]; [lia|]. cbn [negb andb].
  destruct (Z.leb_spec len i) as [L|L].
  - assert (i = len) by lia. subst i.
    exists buf, w. split; [reflexivity|]. split; [intros; lia|reflexivity].
  - destruct f as [|f']; [lia|].
    unfold bind. cbn [recv_wait]. prims.
    destruct (Z.eqb_spec (Z.land (lsr_in (hw w) (lsr_n w)) (UART_LSR_RDR H)) 0)
      as [E|_]; [exfalso; exact (Hrdy (lsr_n w) (le_n _) E)|].
    prims.
    assert (Ei : U32.add i 1 = i + 1)
      by (apply wrap_small; unfold U32.modulus in *; lia).
    rewrite Ei.
    match goal with |- context [recv_loop H (S f') uart ?b len (i + 1) ?t ?w1] =>
      destruct (IH b (i + 1) t w1 ltac:(lia) ltac:(lia)) as (buf' & w' & R & Bhi & Blo)
    end.
    { cbn [lsr_n hw]. intros k Hk. apply Hrdy. lia. }
    exists buf', w'. split; [exact R|]. cbn [hw rbr_n] in Bhi. split.
    + intros j Hj. destruct (Z.eq_dec j i) as [->|Hne].
      * rewrite Blo by lia. unfold store. rewrite Z.eqb_refl.
        rewrite Z.sub_diag. cbn [Z.to_nat]. rewrite Nat.add_0_r. reflexivity.
      * rewrite Bhi by lia. do 2 f_equal. lia.
    + intros j Hj. rewrite Blo by lia. unfold store.
      destruct (Z.eqb_spec j i); [lia|reflexivity].
Qed.

(** With a length that is not zero the count never passes it. *)
Lemma recv_loop_count (H : uart_h) (uart len : Z) :
  0 < len < U32.modulus ->
  forall (fuel : nat) (buf : Z -> Z) (i timeout : Z) (w : world)
         (n : Z) (buf' : Z -> Z) (w' : world),
    0 <= i <= len ->
    recv_loop H fuel uart buf len i timeout w = Ret (n, buf') w' ->
    i <= n <= len.
Proof.
  intros Hlen. induction fuel as [|f IH]; intros buf i timeout w n buf' w' Hi R;
    [discriminate|].
  cbn [recv_loop] in R. unfold recv_full in R.
  destruct (Z.eqb_spec len 0) as [E|_]; [lia|]. cbn [negb andb] in R.
  destruct (Z.leb_spec len i) as [L|L].
  - inversion R; subst. lia.
  - unfold bind in R.
    destruct (recv_wait H f uart timeout w) as [b w1| |]; try discriminate.
    destruct b.
    + prims_in R.
      assert (Ei : U32.add i 1 = i + 1)
        by (apply wrap_small; unfold U32.modulus in *; lia).
      rewrite Ei in R. apply IH in R; lia.
    + inversion R; subst. lia.
Qed.

(** C2: with a length that is not zero and the receiver-data-ready bit
    set at every read of the line status, uart_recv returns exactly the
    length (any fuel above the length is enough) and the buffer holds the
    bytes presented by the receive buffer register, in order; and
    whatever the device does, a count that uart_recv returns lies between
    0 and the length. *)
Theorem uart_recv_data_ready (H : uart_h) (fuel : nat) (idx : Z)
        (buf : Z -> Z) (len : Z) (w : world) :
  0 <= idx < 5 ->
  0 < len < U32.modulus ->
  ((Z.to_nat len < fuel)%nat ->
   (forall k, Z.land (next_lsr w k) (UART_LSR_RDR H) <> 0) ->
   (forall k, 0 <= next_rbr w k < 256) ->
   exists buf' w',
     uart_recv H fuel idx buf len w = Ret (len, buf') w' /\
     forall j, 0 <= j < len -> buf' j = next_rbr w (Z.to_nat j)) /\
  (forall n buf' w',
     uart_recv H fuel idx buf len w = Ret (n, buf') w' -> 0 <= n <= len).
Proof.
  intros Hi Hlen.
  destruct (uart_at_in_range H idx w Hi) as (off & _ & Hat).
  set (uart := U32.add (UART_BASE H) off) in *.
  destruct (recv_begin_run H uart w) as (w1 & Hb & Hhw & Hl & Hr & _).
  unfold uart_recv, bind. rewrite Hat, Hb. cbn [fst snd].
  split.
  - intros Hf Hrdy Hbytes.
    destruct (recv_loop_ready H uart len Hlen fuel buf 0
                (U32.add (U32.wrap (tmr_in (hw w) (tmr_n w))) 250) w1)
      as (buf' & w2 & R & Bhi & _).
    + lia.
    + rewrite Z.sub_0_r. exact Hf.
    + intros k Hk. rewrite Hhw.
      replace k with (lsr_n w + (k - lsr_n w))%nat by lia. apply Hrdy.
    + rewrite R.
      destruct (recv_end_run H uart
                  (negb (Z.land (regs w uart UART_MCR) (UART_MCR_RTS H) =? 0)) w2)
        as (w' & He & _).
      rewrite He. exists buf', w'. split; [reflexivity|].
      intros j Hj. rewrite Bhi by lia. rewrite Hhw, Hr, Z.sub_0_r.
      apply Z.mod_small. apply Hbytes.
  - intros n buf' w' R.
    destruct (recv_loop H fuel uart buf len 0
                (U32.add (U32.wrap (tmr_in (hw w) (tmr_n w))) 250) w1)
      as [[n1 b1] w2| |] eqn:L; try discriminate.
    apply recv_loop_count in L; [|exact Hlen|lia].
    destruct (recv_end H uart _ w2); try discriminate.
    inversion R; subst. lia.
Qed.

Lemma uart_recv_data_ready_witness :
  exists buf' w',
    uart_recv sample_h 5 2 (fun _ => 0) 4 (ready_world 0) = Ret (4, buf') w' /\
    forall j, 0 <= j < 4 -> buf' j = next_rbr (ready_world 0) (Z.to_nat j).
Proof.
  apply (proj1 (uart_recv_data_ready sample_h 5 2 (fun _ => 0) 4
                  (ready_world 0) ltac:(lia) ltac:(unfold U32.modulus; lia))).
  - simpl. lia.
  - intros k. discriminate.
  - intros k. apply Z.mod_pos_bound. lia.
Defined.

(** With a length of 0 nothing bounds the count: two bytes arrive, the
    line falls silent, and uart_recv returns 2. *)
Example uart_recv_unbounded_count :
  exists buf' w',
    uart_recv sample_h 300 0 (fun _ => 0) 0 burst_world = Ret (2, buf') w' /\
    buf' 0 = 65 /\ buf' 1 = 66.
Proof. eexists. eexists. split; [vm_compute; reflexivity|]. split; reflexivity. Qed.

(** ** The inactivity timeout *)

(** The first index at which a sequence passes a bound. *)
Lemma first_above (f : nat -> Z) (bound : Z) :
  forall n, bound < f n ->
    exists m, (m <= n)%nat /\ bound < f m /\
              forall j, (j < m)%nat -> f j <= bound.
Proof.
  assert (G : forall k,
             (exists m, (m <= k)%nat /\ bound < f m /\
                        forall j, (j < m)%nat -> f j <= bound) \/
             (forall j, (j <= k)%nat -> f j <= bound)).
  { induction k as [|k IHk].
    - destruct (Z.ltb_spec bound (f O)) as [L|L].
      + left. exists O. split; [lia|]. split; [exact L|]. intros j Hj. lia.
      + right. intros j Hj. replace j with O by lia. exact L.
    - destruct IHk as [(m & Hm & Hb & Hlow) | Hall].
      + left. exists m. split; [lia|]. split; assumption.
      + destruct (Z.ltb_spec bound (f (S k))) as [L|L].
        * left. exists (S k). split; [lia|]. split; [exact L|].
          intros j Hj. apply Hall. lia.
        * right. intros j Hj.
          destruct (Nat.eq_dec j (S k)) as [->|Hne]; [exact L|].
          apply Hall. lia. }
  intros n Hn. destruct (G n) as [Hex | Hall]; [exact Hex|].
  specialize (Hall n (le_n _)). lia.
Qed.

(** With no byte arriving the wait loop leaves through [goto out] at the
    first timer read that is above the timeout. *)
Lemma recv_wait_timeout (H : uart_h) (uart timeout : Z) :
  forall (d fuel : nat) (w : world),
    (forall k, (lsr_n w <= k)%nat ->
               Z.land (lsr_in (hw w) k) (UART_LSR_RDR H) = 0) ->
    (forall j, (j < d)%nat ->
               U32.wrap (tmr_in (hw w) (tmr_n w + j)) <= timeout) ->
    timeout < U32.wrap (tmr_in (hw w) (tmr_n w + d)) ->
    (d < fuel)%nat ->
    exists w',
      recv_wait H fuel uart timeout w = Ret false w' /\
      tmr_n w' = (tmr_n w + d + 1)%nat /\ rbr_n w' = rbr_n w /\
      regs w' = regs w /\ hw w' = hw w.
Proof.
  induction d as [|d IH]; intros fuel w Hlsr Hlow Hhi Hf;
    (destruct fuel as [|f]; [lia|]);
    cbn [recv_wait]; prims;
    rewrite (proj2 (Z.eqb_eq _ _) (Hlsr (lsr_n w) (le_n _))); prims.
  - rewrite Nat.add_0_r in Hhi.
    rewrite (proj2 (Z.ltb_lt _ _) Hhi). prims.
    eexists. split; [reflexivity|]. cbn [tmr_n rbr_n regs hw].
    repeat split. lia.
  - pose proof (Hlow O ltac:(lia)) as H0. rewrite Nat.add_0_r in H0.
    rewrite (proj2 (Z.ltb_ge _ _) H0).
    match goal with |- context [recv_wait H f uart timeout ?w1] =>
      destruct (IH f w1) as (w' & R & Ht & Hr & Hg & Hh)
    end.
    + cbn [lsr_n hw]. intros k Hk. apply Hlsr. lia.
    + cbn [tmr_n hw]. intros j Hj.
      replace (S (tmr_n w) + j)%nat with (tmr_n w + S j)%nat by lia.
      apply Hlow. lia.
    + cbn [tmr_n hw].
      replace (S (tmr_n w) + d)%nat with (tmr_n w + S d)%nat by lia.
      exact Hhi.
    + lia.
    + exists w'. split; [exact R|]. cbn [tmr_n rbr_n regs hw] in *.
      repeat split; try assumption. lia.
Qed.

(** A timeout of 2^32 - 1 is never passed. *)
Lemma recv_wait_never (H : uart_h) (uart : Z) :
  forall (fuel : nat) (w : world),
    (forall k, Z.land (lsr_in (hw w) k) (UART_LSR_RDR H) = 0) ->
    recv_wait H fuel uart (U32.modulus - 1) w = OutOfFuel.
Proof.
  induction fuel as [|f IH]; intros w Hlsr; [reflexivity|].
  cbn [recv_wait]. prims.
  rewrite (proj2 (Z.eqb_eq _ _) (Hlsr (lsr_n w))). prims.
  pose proof (wrap_range (tmr_in (hw w) (tmr_n w))) as B.
  destruct (Z.ltb_spec (U32.modulus - 1) (U32.wrap (tmr_in (hw w) (tmr_n w))))
    as [L|_]; [lia|].
  apply IH. exact Hlsr.
Qed.

(** A sequence that increases strictly over its first [n] steps has
    gained at least [k] after [k] of them. *)
Lemma grows_upto (f : nat -> Z) (n : nat) :
  (forall k, (k < n)%nat -> f k < f (S k)) ->
  forall k, (k <= n)%nat -> f O + Z.of_nat k <= f k.
Proof.
  intros Hinc. induction k as [|k IH]; intros Hk; [lia|].
  specialize (Hinc k ltac:(lia)). specialize (IH ltac:(lia)). lia.
Qed.

(** With a length of 0 and a byte always waiting the loop has no exit. *)
Lemma recv_loop_unbounded (H : uart_h) (uart : Z) :
  forall (fuel : nat) (buf : Z -> Z) (i timeout : Z) (w : world),
    (forall k, Z.land (lsr_in (hw w) k) (UART_LSR_RDR H) <> 0) ->
    recv_loop H fuel uart buf 0 i timeout w = OutOfFuel.
Proof.
  induction fuel as [|f IH]; intros buf i timeout w Hrdy; [reflexivity|].
  cbn [recv_loop]. replace (recv_full 0 i) with false by reflexivity.
  unfold bind. destruct f as [|f']; [reflexivity|].
  cbn [recv_wait]. prims.
  destruct (Z.eqb_spec (Z.land (lsr_in (hw w) (lsr_n w)) (UART_LSR_RDR H)) 0)
    as [E|_]; [exfalso; exact (Hrdy _ E)|].
  prims. apply IH. exact Hrdy.
Qed.

(** C3: with the receiver-data-ready bit never set and the readings of
    the microsecond counter strictly increasing (over the first 252
    readings of the call, which is all the call can take), uart_recv
    terminates and returns 0, leaving the buffer as it was, for every
    length: it returns at the first reading that is more than 250 above
    the reading taken at the start of the call, and no later than the
    251st reading of the loop.  With a length of 0 the test on the count
    never stops the loop, so the timeout alone ends the call. *)
Theorem uart_recv_timeout (H : uart_h) (idx : Z) (buf : Z -> Z) (len : Z)
        (w : world) :
  0 <= idx < 5 ->
  0 <= len ->
  (forall k, Z.land (next_lsr w k) (UART_LSR_RDR H) = 0) ->
  (forall k, (k <= 250)%nat -> next_reading w k < next_reading w (S k)) ->
  (exists d,
     (d <= 250)%nat /\
     next_reading w 0 + 250 < next_reading w (S d) /\
     (forall j, (j < d)%nat -> next_reading w (S j) <= next_reading w 0 + 250) /\
     forall fuel, (S d < fuel)%nat ->
       exists w',
         uart_recv H fuel idx buf len w = Ret (0, buf) w' /\
         tmr_n w' = (tmr_n w + d + 2)%nat) /\
  (forall i, recv_full 0 i = false).
Proof.
  intros Hi Hlen Hlsr Hinc. split; [|intros i; reflexivity].
  pose proof (grows_upto (next_reading w) 251
                (fun k Hk => Hinc k ltac:(lia))) as Hgrow.
  destruct (first_above (fun j => next_reading w (S j))
              (next_reading w 0 + 250) 250%nat) as (d & Hd & Hhi & Hlow).
  { specialize (Hgrow 251%nat ltac:(lia)). cbn beta. lia. }
  cbn beta in Hhi, Hlow.
  exists d. split; [exact Hd|]. split; [exact Hhi|]. split; [exact Hlow|].
  intros fuel Hf.
  destruct (uart_at_in_range H idx w Hi) as (off & _ & Hat).
  set (uart := U32.add (UART_BASE H) off) in *.
  destruct (recv_begin_run H uart w) as (w1 & Hb & Hhw & Hl & Hr & Ht & _).
  assert (Et : U32.add (U32.wrap (tmr_in (hw w) (tmr_n w))) 250
               = next_reading w 0 + 250).
  { assert (E0 : next_reading w 0 = U32.wrap (tmr_in (hw w) (tmr_n w))).
    { unfold next_reading, next_tmr. rewrite Nat.add_0_r. reflexivity. }
    rewrite <- E0.
    pose proof (wrap_range (next_tmr w 0)) as R0.
    pose proof (wrap_range (next_tmr w (S d))) as Rd.
    fold (next_reading w 0) in R0. fold (next_reading w (S d)) in Rd.
    apply wrap_small. lia. }
  destruct fuel as [|f]; [lia|].
  destruct (recv_wait_timeout H uart (next_reading w 0 + 250) d f w1)
    as (w2 & Rw & Tw & _).
  - intros k Hk. rewrite Hhw.
    replace k with (lsr_n w + (k - lsr_n w))%nat by lia. apply Hlsr.
  - intros j Hj. rewrite Hhw, Ht.
    replace (S (tmr_n w) + j)%nat with (tmr_n w + S j)%nat by lia.
    apply (Hlow j Hj).
  - rewrite Hhw, Ht.
    replace (S (tmr_n w) + d)%nat with (tmr_n w + S d)%nat by lia.
    exact Hhi.
  - lia.
  - destruct (recv_end_run H uart
                (negb (Z.land (regs w uart UART_MCR) (UART_MCR_RTS H) =? 0)) w2)
      as (w' & He & _ & _ & _ & Te & _).
    exists w'. unfold uart_recv, bind. rewrite Hat, Hb. cbn [fst snd].
    rewrite Et. cbn [recv_loop].
    assert (Ef : recv_full len 0 = false).
    { unfold recv_full. destruct (Z.eqb_spec len 0) as [->|Hne]; [reflexivity|].
      destruct (Z.leb_spec len 0); [lia|reflexivity]. }
    rewrite Ef. unfold bind. rewrite Rw. cbn [ret]. rewrite He.
    split; [reflexivity|]. rewrite Te, Tw, Ht. lia.
Qed.

Lemma uart_recv_timeout_witness :
  (exists d,
     (d <= 250)%nat /\
     next_reading (quiet_world 0) 0 + 250 < next_reading (quiet_world 0) (S d) /\
     (forall j, (j < d)%nat ->
        next_reading (quiet_world 0) (S j)
        <= next_reading (quiet_world 0) 0 + 250) /\
     forall fuel, (S d < fuel)%nat ->
       exists w',
         uart_recv sample_h fuel 3 (fun _ => 0) 0 (quiet_world 0)
         = Ret (0, fun _ => 0) w' /\
         tmr_n w' = (tmr_n (quiet_world 0) + d + 2)%nat) /\
  (forall i, recv_full 0 i = false).
Proof.
  apply (uart_recv_timeout sample_h 3 (fun _ => 0) 0 (quiet_world 0)).
  - lia.
  - lia.
  - intros k. reflexivity.
  - intros k Hk. unfold next_reading, next_tmr, quiet_world, boot, quiet_env.
    cbn [hw tmr_in tmr_n].
    rewrite !wrap_small by (change U32.modulus with 4294967296; lia).
    lia.
Defined.

(** Where the readings are not increasing: a call that starts with the
    counter at 2^32 - 251 computes a timeout of 2^32 - 1; the readings
    climb to 2^32 - 1 and fall back to 0, none exceeds the timeout, and
    with no byte arriving the call does not return. *)
Lemma uart_recv_timer_wrap_hangs :
  (forall k, Z.land (next_lsr wrap_world k) (UART_LSR_RDR sample_h) = 0) /\
  next_reading wrap_world 0 = 2 ^ 32 - 251 /\
  next_reading wrap_world 250 = 2 ^ 32 - 1 /\
  next_reading wrap_world 251 = 0 /\
  ~ (exists fuel r w',
       uart_recv sample_h fuel 0 (fun _ => 0) 4 wrap_world = Ret r w').
Proof.
  split; [intros k; reflexivity|].
  split; [vm_compute; reflexivity|].
  split; [vm_compute; reflexivity|].
  split; [vm_compute; reflexivity|].
  intros (fuel & r & w' & R).
  assert (Ea : uart_at sample_h 0 wrap_world = Ret 0x70006000 wrap_world)
    by (vm_compute; reflexivity).
  assert (Et : U32.add (U32.wrap (tmr_in (hw wrap_world) (tmr_n wrap_world))) 250
               = U32.modulus - 1)
    by (vm_compute; reflexivity).
  destruct (recv_begin_run sample_h 0x70006000 wrap_world)
    as (w1 & Hb & Hhw & _).
  unfold uart_recv, bind in R. rewrite Ea, Hb in R. cbn [fst snd] in R.
  rewrite Et in R.
  destruct fuel as [|f]; [discriminate|].
  cbn [recv_loop] in R.
  replace (recv_full 4 0) with false in R by reflexivity.
  unfold bind in R.
  rewrite recv_wait_never in R; [discriminate|].
  intros k. rewrite Hhw. reflexivity.
Qed.

(** ** Manual flow control *)

(** C4: when RTS is set in MCR at entry, the statements before the loop
    write MCR with RTS cleared; the loop, however it ends and whatever it
    returns, writes no register, so RTS is still clear when it ends; and
    the statements at [out:], which both the [break] and the [goto] reach,
    write MCR with RTS set before uart_recv returns. *)
Theorem uart_recv_rts_pairing (H : uart_h) (idx : Z) (buf : Z -> Z) (len : Z)
        (w : world) (uart : Z) :
  uart_at H idx w = Ret uart w ->
  Z.land (regs w uart UART_MCR) (UART_MCR_RTS H) <> 0 ->
  exists timeout w1 v1,
    recv_begin H uart w = Ret (true, timeout) w1 /\
    (exists evs, log w1 = EvWrite uart UART_MCR v1 :: evs ++ log w /\
                 existsb is_write evs = false) /\
    Z.land v1 (UART_MCR_RTS H) = 0 /\
    regs w1 uart UART_MCR = v1 /\
    forall fuel n buf' w2,
      recv_loop H fuel uart buf len 0 timeout w1 = Ret (n, buf') w2 ->
      (exists evs, log w2 = evs ++ log w1 /\ existsb is_write evs = false) /\
      regs w2 uart UART_MCR = v1 /\
      exists w' v2,
        recv_end H uart true w2 = Ret tt w' /\
        uart_recv H fuel idx buf len w = Ret (n, buf') w' /\
        log w' = EvWrite uart UART_MCR v2 :: EvRead uart UART_MCR v1 :: log w2 /\
        Z.land v2 (UART_MCR_RTS H) = UART_MCR_RTS H /\
        regs w' uart UART_MCR = v2.
Proof.
  intros Hat Hrts.
  destruct (recv_begin_run H uart w) as (w1 & Hb & _ & _ & _ & _ & Hregs & Hlog).
  destruct (Z.eqb_spec (Z.land (regs w uart UART_MCR) (UART_MCR_RTS H)) 0)
    as [E|_]; [contradiction|].
  cbn [negb] in Hb, Hregs, Hlog.
  set (v1 := Z.land (regs w uart UART_MCR) (U32.not (UART_MCR_RTS H))) in *.
  exists (U32.add (U32.wrap (tmr_in (hw w) (tmr_n w))) 250), w1, v1.
  split; [exact Hb|]. split.
  { exists [EvRead uart UART_MCR (regs w uart UART_MCR);
            EvTimer (U32.wrap (tmr_in (hw w) (tmr_n w)));
            EvRead uart UART_MCR (regs w uart UART_MCR)].
    split; [exact Hlog|reflexivity]. }
  split; [apply land_not_clear|].
  assert (Hv1 : regs w1 uart UART_MCR = v1) by (rewrite Hregs; apply upd_same).
  split; [exact Hv1|].
  intros fuel n buf' w2 R.
  destruct (recv_loop_frame H uart len fuel buf 0 _ w1 (n, buf') w2 R)
    as (Fr & _ & Fl).
  split; [exact Fl|].
  assert (Hv2 : regs w2 uart UART_MCR = v1) by (rewrite Fr; exact Hv1).
  split; [exact Hv2|].
  destruct (recv_end_run H uart true w2) as (w' & He & _ & _ & _ & _ & Er & El).
  rewrite Hv2 in Er, El.
  exists w', (Z.lor v1 (UART_MCR_RTS H)).
  split; [exact He|]. split.
  { unfold uart_recv, bind. rewrite Hat, Hb. cbn [fst snd].
    rewrite R, He. reflexivity. }
  split; [exact El|]. split; [apply land_lor_set|].
  rewrite Er. apply upd_same.
Qed.

Lemma uart_recv_rts_pairing_witness :
  (exists buf' w',
     uart_recv sample_h 5 0 (fun _ => 0) 2 (ready_world 2) = Ret (2, buf') w' /\
     Z.land (regs w' 0x70006000 UART_MCR) 2 = 2) /\
  (exists buf' w',
     uart_recv sample_h 300 0 (fun _ => 0) 2 (quiet_world 2) = Ret (0, buf') w' /\
     Z.land (regs w' 0x70006000 UART_MCR) 2 = 2).
Proof.
  split.
  - destruct (uart_recv_rts_pairing sample_h 0 (fun _ => 0) 2 (ready_world 2)
                0x70006000)
      as (t & w1 & v1 & Hb & _ & _ & _ & Hloop).
    + vm_compute. reflexivity.
    + vm_compute. discriminate.
    + vm_compute in Hb. inversion Hb; subst t w1; clear Hb.
      edestruct (Hloop 5%nat) as (_ & _ & w' & v2 & _ & Hr & _ & Hs & Hv).
      * vm_compute. reflexivity.
      * eexists. exists w'. split; [exact Hr|]. rewrite Hv. exact Hs.
  - destruct (uart_recv_rts_pairing sample_h 0 (fun _ => 0) 2 (quiet_world 2)
                0x70006000)
      as (t & w1 & v1 & Hb & _ & _ & _ & Hloop).
    + vm_compute. reflexivity.
    + vm_compute. discriminate.
    + vm_compute in Hb. inversion Hb; subst t w1; clear Hb.
      edestruct (Hloop 300%nat) as (_ & _ & w' & v2 & _ & Hr & _ & Hs & Hv).
      * vm_compute. reflexivity.
      * eexists. exists w'. split; [exact Hr|]. rewrite Hv. exact Hs.
Defined.

(** * uart_wait_xfer and uart_init *)

Lemma wait_lsr_frame (uart mask : Z) :
  forall (fuel : nat) (w w' : world),
    wait_lsr fuel uart mask w = Ret tt w' ->
    regs w' = regs w /\ hw w' = hw w /\
    exists evs, log w' = evs ++ log w /\ forallb is_read evs = true.
Proof.
  induction fuel as [|f IH]; intros w w' R; [discriminate|].
  cbn [wait_lsr] in R. prims_in R.
  destruct (Z.land (lsr_in (hw w) (lsr_n w)) mask =? 0).
  - apply IH in R. cbn [regs hw log] in R.
    destruct R as (Rr & Rh & evs & Rl & Rw).
    split; [exact Rr|]. split; [exact Rh|].
    exists (evs ++ [EvRead uart UART_LSR (lsr_in (hw w) (lsr_n w))]). split.
    + rewrite Rl, <- app_assoc. reflexivity.
    + rewrite forallb_app, Rw. reflexivity.
  - prims_in R. inversion R; subst. cbn [regs hw log].
    split; [reflexivity|]. split; [reflexivity|].
    exists [EvRead uart UART_LSR (lsr_in (hw w) (lsr_n w))].
    split; reflexivity.
Qed.

Lemma drain_rbr_frame (H : uart_h) (uart : Z) :
  forall (fuel : nat) (w w' : world),
    drain_rbr H fuel uart w = Ret tt w' ->
    regs w' = regs w /\ hw w' = hw w /\
    exists evs, log w' = evs ++ log w /\ forallb is_read evs = true.
Proof.
  induction fuel as [|f IH]; intros w w' R; [discriminate|].
  cbn [drain_rbr] in R. prims_in R.
  destruct (Z.land (lsr_in (hw w) (lsr_n w)) (UART_LSR_RDR H) =? 0).
  - prims_in R. inversion R; subst. cbn [regs hw log].
    split; [reflexivity|]. split; [reflexivity|].
    exists [EvRead uart UART_LSR (lsr_in (hw w) (lsr_n w))].
    split; reflexivity.
  - prims_in R. apply IH in R. cbn [regs hw log] in R.
    destruct R as (Rr & Rh & evs & Rl & Rw).
    split; [exact Rr|]. split; [exact Rh|].
    exists (evs ++ [EvRead uart UART_THR_DLAB (rbr_in (hw w) (rbr_n w));
                    EvRead uart UART_LSR (lsr_in (hw w) (lsr_n w))]).
    split.
    + rewrite Rl, <- app_assoc. reflexivity.
    + rewrite forallb_app, Rw. reflexivity.
Qed.

Lemma uart_wait_xfer_frame (H : uart_h) (fuel : nat) (idx which : Z)
      (w w' : world) :
  uart_wait_xfer H fuel idx which w = Ret tt w' ->
  regs w' = regs w /\ hw w' = hw w /\
  exists evs, log w' = evs ++ log w /\ forallb is_read evs = true.
Proof.
  unfold uart_wait_xfer, uart_at. intros R.
  destruct (base_offset idx) as [off|]; [|discriminate].
  unfold bind in R. cbn [ret] in R.
  set (uart := U32.add (UART_BASE H) off) in *.
  assert (T : exists w1, regs w1 = regs w /\ hw w1 = hw w /\
              (exists evs, log w1 = evs ++ log w /\ forallb is_read evs = true) /\
              (if Z.land (UART_RX_RDYR H) which =? 0 then ret tt
               else drain_rbr H fuel uart) w1 = Ret tt w').
  { destruct (Z.land (UART_TX_IDLE H) which =? 0).
    - exists w. split; [reflexivity|]. split; [reflexivity|].
      split; [exists []; split; reflexivity | exact R].
    - destruct (wait_lsr fuel uart (UART_LSR_TMTY H) w) as [[] w1| |] eqn:W;
        try discriminate.
      apply wait_lsr_frame in W. destruct W as (Wr & Wh & Wl).
      exists w1. repeat split; assumption. }
  destruct T as (w1 & Tr & Th & (evs1 & Tl & Tw) & R2).
  destruct (Z.land (UART_RX_RDYR H) which =? 0).
  - inversion R2; subst. split; [exact Tr|]. split; [exact Th|].
    exists evs1. split; assumption.
  - apply drain_rbr_frame in R2. destruct R2 as (Rr & Rh & evs2 & Rl & Rw).
    split; [congruence|]. split; [congruence|].
    exists (evs2 ++ evs1). split.
    + rewrite Rl, Tl, app_assoc. reflexivity.
    + rewrite forallb_app, Rw, Tw. reflexivity.
Qed.

(** What a returning uart_init has done: between the two waits, which
    only read, it asks the clock driver, programs the divisor behind the
    latch, commits the line control value, enables and clears the FIFOs,
    sets the mode and sleeps for the settle delay, in this order. *)
Lemma uart_init_log (H : uart_h) (fuel : nat) (idx baud mode : Z)
      (w w' : world) :
  uart_init H fuel idx baud mode w = Ret tt w' ->
  exists uart div us s1 s2 evs1 evs2,
    uart_at H idx w = Ret uart w /\
    uart_div (clk_in (hw w) idx baud) baud = Some div /\
    uart_settle_us baud = Some us /\
    forallb is_read evs1 = true /\
    forallb is_read evs2 = true /\
    log w' =
      evs2 ++
      [EvSleep us;
       EvWrite uart UART_MCR mode;
       EvWrite uart UART_IIR_FCR
         (Z.lor (Z.lor (UART_IIR_FCR_EN_FIFO H) (UART_IIR_FCR_TX_CLR H))
                (UART_IIR_FCR_RX_CLR H));
       EvSleep 96;
       EvWrite uart UART_MCR 0;
       EvSleep 20;
       EvRead uart UART_SPR s2;
       EvWrite uart UART_IIR_FCR (UART_IIR_FCR_EN_FIFO H);
       EvRead uart UART_SPR s1;
       EvWrite uart UART_LCR (uart_init_lcr H baud);
       EvWrite uart UART_IER_DLAB (U32.to_u8 (Z.shiftr div 8));
       EvWrite uart UART_THR_DLAB (U32.to_u8 div);
       EvWrite uart UART_LCR
         (Z.lor (UART_LCR_DLAB H) (UART_LCR_WORD_LENGTH_8 H));
       EvWrite uart UART_IER_DLAB 0;
       EvClock idx baud] ++ evs1 ++ log w /\
    regs w' uart UART_LCR = uart_init_lcr H baud /\
    regs w' uart UART_MCR = mode.
Proof.
  intros R. unfold uart_init in R. unfold bind at 1 in R.
  unfold uart_at in *. destruct (base_offset idx) as [off|]; [|discriminate].
  cbn [ret] in R. set (uart := U32.add (UART_BASE H) off) in *.
  unfold bind at 1 in R.
  assert (T : exists w1 evs1,
             (if Z.land mode (Z.lor (UART_MCR_CTS_EN H) (UART_MCR_DTR H)) =? 0
              then uart_wait_xfer H fuel idx (UART_TX_IDLE H)
              else ret tt) w = Ret tt w1 /\
             regs w1 = regs w /\ hw w1 = hw w /\
             log w1 = evs1 ++ log w /\ forallb is_read evs1 = true).
  { destruct (Z.land mode (Z.lor (UART_MCR_CTS_EN H) (UART_MCR_DTR H)) =? 0).
    - destruct (uart_wait_xfer H fuel idx (UART_TX_IDLE H) w) as [[] w1| |] eqn:W;
        try discriminate.
      destruct (uart_wait_xfer_frame H fuel idx _ w w1 W) as (Wr & Wh & evs & Wl & Ww).
      exists w1, evs. repeat split; assumption.
    - exists w, []. repeat split. }
  destruct T as (w1 & evs1 & T1 & Tr & Th & Tl & Tw).
  rewrite T1 in R. prims_in R.
  unfold clock_uart_use_src_div in R. rewrite Th in R.
  destruct (uart_div (clk_in (hw w) idx baud) baud) as [div|] eqn:D;
    [|discriminate].
  unfold lift at 1 in R. prims_in R.
  destruct (uart_settle_us baud) as [us|] eqn:U; [|discriminate].
  unfold lift in R. prims_in R.
  apply uart_wait_xfer_frame in R. cbn [regs hw log] in R.
  destruct R as (Rr & Rh & evs2 & Rl & Rw).
  exists uart, div, us. do 2 eexists. exists evs1, evs2.
  split; [reflexivity|]. split; [reflexivity|]. split; [reflexivity|].
  split; [exact Tw|]. split; [exact Rw|]. split.
  - rewrite Rl, Tl. reflexivity.
  - rewrite Rr. split.
    + rewrite !upd_other by congruence. apply upd_same.
    + apply upd_same.
Qed.

(** ** The divisor *)

(** C1, as amended: for every baud rate B with 0 < B < 2^28 (so that
    16*B and 8*B + 408000000 fit in 32 bits) and a divided clock source,
    the divisor uart_init computes is the nearest integer to
    408000000 / (16*B), an exact half rounded up; its low and high bytes
    are what a returning uart_init has written to the divisor latch. *)
Theorem uart_div_round_closest (baud : Z) :
  0 < baud < 2 ^ 28 ->
  let d := round_half_up (inject_Z 408000000 / inject_Z (16 * baud)) in
  uart_div true baud = Some d /\
  forall H fuel idx mode w w',
    clk_in (hw w) idx baud = true ->
    uart_init H fuel idx baud mode w = Ret tt w' ->
    exists uart evs0 evs1,
      uart_at H idx w = Ret uart w /\
      log w' = evs1 ++ EvWrite uart UART_IER_DLAB (U32.to_u8 (Z.shiftr d 8))
                    :: EvWrite uart UART_THR_DLAB (U32.to_u8 d) :: evs0.
Proof.
  intros Hb d.
  assert (E : uart_div true baud = Some d).
  { unfold d, uart_div, U32.div, U32.add, U32.mul.
    assert (P28 : 2 ^ 28 = 268435456) by reflexivity.
    rewrite (wrap_small (8 * baud)) by (unfold U32.modulus; lia).
    rewrite (wrap_small (16 * baud)) by (unfold U32.modulus; lia).
    rewrite wrap_small by (unfold U32.modulus; lia).
    destruct (Z.eqb_spec (16 * baud) 0) as [Z0|_]; [lia|].
    rewrite round_half_up_div by lia.
    f_equal.
    replace (2 * 408000000 + 16 * baud) with (2 * (8 * baud + 408000000)) by ring.
    rewrite Z.div_mul_cancel_l by lia. reflexivity. }
  split; [exact E|].
  intros H fuel idx mode w w' Hclk R.
  destruct (uart_init_log H fuel idx baud mode w w' R)
    as (uart & div & us & s1 & s2 & evs1 & evs2 & Hat & Hdiv & _ & _ & _ & Hlog & _).
  rewrite Hclk, E in Hdiv. inversion Hdiv; subst div.
  exists uart. eexists.
  exists (evs2 ++
          [EvSleep us; EvWrite uart UART_MCR mode;
           EvWrite uart UART_IIR_FCR
             (Z.lor (Z.lor (UART_IIR_FCR_EN_FIFO H) (UART_IIR_FCR_TX_CLR H))
                    (UART_IIR_FCR_RX_CLR H));
           EvSleep 96; EvWrite uart UART_MCR 0; EvSleep 20;
           EvRead uart UART_SPR s2;
           EvWrite uart UART_IIR_FCR (UART_IIR_FCR_EN_FIFO H);
           EvRead uart UART_SPR s1;
           EvWrite uart UART_LCR (uart_init_lcr H baud)]).
  split; [exact Hat|].
  rewrite Hlog, <- app_assoc. reflexivity.
Qed.

Lemma uart_div_round_closest_witness :
  uart_div true 115200
  = Some (round_half_up (inject_Z 408000000 / inject_Z (16 * 115200))).
Proof. apply (uart_div_round_closest 115200). lia. Defined.

(** At B = 2^28 the product 16*B wraps to 0 and the division has no
    result. *)
Example uart_div_zero_divisor : uart_div true 268435456 = None.
Proof. reflexivity. Qed.

(** C1, as stated, fails once 16*B no longer fits in 32 bits: at
    B = 2^28 + 1 the product wraps to 16, the computed divisor is
    159717728, and the nearest integer to 408000000 / (16*B) is 0. *)
Lemma uart_div_wraps :
  0 < 268435457 < U32.modulus /\
  uart_div true 268435457 = Some 159717728 /\
  round_half_up (inject_Z 408000000 / inject_Z (16 * 268435457)) = 0 /\
  uart_div true 268435457
  <> Some (round_half_up (inject_Z 408000000 / inject_Z (16 * 268435457))).
Proof.
  assert (R : round_half_up (inject_Z 408000000 / inject_Z (16 * 268435457)) = 0).
  { rewrite round_half_up_div by lia. reflexivity. }
  repeat split; try reflexivity; try exact R.
  rewrite R. vm_compute. discriminate.
Qed.

(** ** The settle delay *)

(** C8, as amended: for every baud rate B with 0 < B <= 2^32 - 1000000
    (so that B + 999999 fits in 32 bits), the delay uart_init asks for
    after the baud change is 3 * ceil(1000000 / B) microseconds; a
    returning uart_init has slept for it right after setting the mode,
    and only reads follow. *)
Theorem uart_settle_us_ceil (baud : Z) :
  0 < baud <= 2 ^ 32 - 1000000 ->
  let us := 3 * ceil (inject_Z 1000000 / inject_Z baud) in
  uart_settle_us baud = Some us /\
  forall H fuel idx mode w w',
    uart_init H fuel idx baud mode w = Ret tt w' ->
    exists uart evs0 evs1,
      uart_at H idx w = Ret uart w /\
      log w' = evs1 ++ EvSleep us :: EvWrite uart UART_MCR mode :: evs0 /\
      forallb is_read evs1 = true.
Proof.
  intros Hb us.
  assert (E : uart_settle_us baud = Some us).
  { unfold us, uart_settle_us, U32.div, U32.add, U32.mul.
    assert (P32 : 2 ^ 32 = 4294967296) by reflexivity.
    rewrite (wrap_small (baud + 999999)) by (unfold U32.modulus; lia).
    destruct (Z.eqb_spec baud 0) as [Z0|_]; [lia|].
    rewrite ceil_div by lia.
    replace (1000000 + baud - 1) with (baud + 999999) by ring.
    assert (Hq : 0 <= (baud + 999999) / baud <= 1000000).
    { split.
      - apply Z.div_pos; lia.
      - apply Z.div_le_upper_bound; lia. }
    rewrite wrap_small by (unfold U32.modulus; lia).
    reflexivity. }
  split; [exact E|].
  intros H fuel idx mode w w' R.
  destruct (uart_init_log H fuel idx baud mode w w' R)
    as (uart & div & us' & s1 & s2 & evs1 & evs2 & Hat & _ & Hus & _ & Hr2 & Hlog & _).
  rewrite E in Hus. inversion Hus; subst us'.
  exists uart. eexists. exists evs2. split; [exact Hat|].
  split; [|exact Hr2]. rewrite Hlog. reflexivity.
Qed.

Lemma uart_settle_us_ceil_witness :
  uart_settle_us 115200 = Some (3 * ceil (inject_Z 1000000 / inject_Z 115200)).
Proof. apply (uart_settle_us_ceil 115200). lia. Defined.

(** C8, as stated, fails once B + 999999 no longer fits in 32 bits: at
    B = 2^32 - 1 the sum wraps to 999998, the quotient is 0 and the delay
    asked for is 0, where 3 * ceil(1000000 / B) is 3. *)
Lemma uart_settle_us_wraps :
  0 < 4294967295 < U32.modulus /\
  uart_settle_us 4294967295 = Some 0 /\
  3 * ceil (inject_Z 1000000 / inject_Z 4294967295) = 3 /\
  uart_settle_us 4294967295
  <> Some (3 * ceil (inject_Z 1000000 / inject_Z 4294967295)).
Proof.
  assert (R : 3 * ceil (inject_Z 1000000 / inject_Z 4294967295) = 3).
  { rewrite ceil_div by lia. reflexivity. }
  repeat split; try reflexivity; try exact R.
  rewrite R. vm_compute. discriminate.
Qed.

(** ** The stop bits *)

(** C6: the line control value uart_init commits has the 2-stop-bit flag
    set exactly when the baud rate is above 1000000; at 1000000 the flag
    is clear.  The value is the last one written to LCR, and it is what
    LCR holds when uart_init returns.  (The word-length field and the
    stop flag are distinct bits of LCR.) *)
Theorem uart_init_stop_bits (H : uart_h) (baud : Z) :
  UART_LCR_STOP H <> 0 ->
  Z.land (UART_LCR_WORD_LENGTH_8 H) (UART_LCR_STOP H) = 0 ->
  two_stop_bits H (uart_init_lcr H baud) = (1000000 <? baud) /\
  two_stop_bits H (uart_init_lcr H 1000000) = false /\
  forall fuel idx mode w w',
    uart_init H fuel idx baud mode w = Ret tt w' ->
    exists uart evs0 evs1,
      uart_at H idx w = Ret uart w /\
      regs w' uart UART_LCR = uart_init_lcr H baud /\
      log w' = evs1 ++ EvWrite uart UART_LCR (uart_init_lcr H baud) :: evs0 /\
      (forall a r v, In (EvWrite a r v) evs1 -> r <> UART_LCR).
Proof.
  intros Hstop Hdisj.
  assert (P : forall b, two_stop_bits H (uart_init_lcr H b) = (1000000 <? b)).
  { intros b. unfold two_stop_bits, uart_init_lcr, uart_lcr_stop.
    rewrite Z.land_lor_distr_l, Hdisj, Z.lor_0_r.
    destruct (1000000 <? b).
    - rewrite Z.land_diag. destruct (Z.eqb_spec (UART_LCR_STOP H) 0); [contradiction|].
      reflexivity.
    - reflexivity. }
  split; [apply P|]. split; [rewrite P; reflexivity|].
  intros fuel idx mode w w' R.
  destruct (uart_init_log H fuel idx baud mode w w' R)
    as (uart & div & us & s1 & s2 & evs1 & evs2 & Hat & _ & _ & _ & Hr2 & Hlog & Hlcr & _).
  exists uart. eexists.
  exists (evs2 ++
          [EvSleep us; EvWrite uart UART_MCR mode;
           EvWrite uart UART_IIR_FCR
             (Z.lor (Z.lor (UART_IIR_FCR_EN_FIFO H) (UART_IIR_FCR_TX_CLR H))
                    (UART_IIR_FCR_RX_CLR H));
           EvSleep 96; EvWrite uart UART_MCR 0; EvSleep 20;
           EvRead uart UART_SPR s2;
           EvWrite uart UART_IIR_FCR (UART_IIR_FCR_EN_FIFO H);
           EvRead uart UART_SPR s1]).
  split; [exact Hat|]. split; [exact Hlcr|]. split.
  - rewrite Hlog, <- app_assoc. reflexivity.
  - intros a r v Hin. apply in_app_or in Hin. destruct Hin as [Hin|Hin].
    + rewrite forallb_forall in Hr2. apply Hr2 in Hin. discriminate.
    + cbn [In] in Hin.
      repeat (destruct Hin as [E|Hin]; [inversion E; subst; discriminate|]).
      contradiction.
Qed.

Lemma uart_init_stop_bits_witness :
  two_stop_bits sample_h (uart_init_lcr sample_h 3000000) = true /\
  two_stop_bits sample_h (uart_init_lcr sample_h 1000000) = false /\
  exists w', uart_init sample_h 4 0 115200 0 (quiet_world 0) = Ret tt w' /\
             regs w' 0x70006000 UART_LCR = 3.
Proof.
  destruct (uart_init_stop_bits sample_h 3000000) as (P & B & _).
  - discriminate.
  - reflexivity.
  - split; [exact P|]. split; [exact B|].
    destruct (uart_init_stop_bits sample_h 115200) as (_ & _ & I).
    + discriminate.
    + reflexivity.
    + destruct (uart_init sample_h 4 0 115200 0 (quiet_world 0))
        as [[] w'| |] eqn:R.
      * exists w'. split; [reflexivity|].
        destruct (I _ _ _ _ _ R) as (uart & evs0 & evs1 & Hat & Hlcr & _).
        vm_compute in Hat. inversion Hat; subst uart. exact Hlcr.
      * vm_compute in R. discriminate.
      * vm_compute in R. discriminate.
Defined.

(** * uart_send *)

Lemma reads_no_writes (evs : list event) :
  forallb is_read evs = true -> writes evs = [].
Proof.
  induction evs as [|e evs IH]; intros Hr; [reflexivity|].
  cbn [forallb] in Hr. apply andb_prop in Hr. destruct Hr as (He & Hr).
  unfold writes in *. cbn [filter]. destruct e; try discriminate.
  cbn [is_write]. apply IH. exact Hr.
Qed.

Lemma writes_app (l1 l2 : list event) : writes (l1 ++ l2) = writes l1 ++ writes l2.
Proof. apply filter_app. Qed.

Lemma sent_step (uart : Z) (buf : Z -> Z) (i : Z) (n : nat) :
  sent uart buf i (S n) = EvWrite uart UART_THR_DLAB (buf i) :: sent uart buf (i + 1) n.
Proof.
  unfold sent. cbn [seq map]. rewrite Z.add_0_r. f_equal.
  rewrite <- seq_shift, map_map. apply map_ext. intros k.
  do 2 f_equal. lia.
Qed.

Lemma send_loop_writes (H : uart_h) (uart : Z) (buf : Z -> Z) (len : Z) :
  0 <= len < U32.modulus ->
  forall (fuel : nat) (i : Z) (w w' : world),
    0 <= i <= len ->
    send_loop H fuel uart buf len i w = Ret tt w' ->
    writes (log w') = rev (sent uart buf i (Z.to_nat (len - i))) ++ writes (log w) /\
    hw w' = hw w.
Proof.
  intros Hlen. induction fuel as [|f IH]; intros i w w' Hi R; [discriminate|].
  cbn [send_loop] in R. destruct (Z.eqb_spec i len) as [->|Hne].
  - inversion R; subst. rewrite Z.sub_diag. split; reflexivity.
  - unfold bind in R.
    destruct (wait_lsr f uart (UART_LSR_THRE H) w) as [[] w1| |] eqn:W;
      try discriminate.
    apply wait_lsr_frame in W. destruct W as (_ & Wh & evs & Wl & Wr).
    prims_in R.
    assert (Ei : U32.add i 1 = i + 1)
      by (apply wrap_small; unfold U32.modulus in *; lia).
    rewrite Ei in R. apply IH in R; [|lia]. cbn [log hw] in R.
    destruct R as (Rw & Rh). split; [|congruence].
    rewrite Rw. replace (Z.to_nat (len - i)) with (S (Z.to_nat (len - (i + 1)))) by lia.
    rewrite sent_step. cbn [rev]. rewrite <- app_assoc. f_equal.
    unfold writes at 1. cbn [filter is_write]. fold (writes (log w1)).
    rewrite Wl, writes_app, (reads_no_writes evs Wr). reflexivity.
Qed.

(** X1: a call of uart_send that returns has written the [len] bytes
    of the buffer, from the first to the last, to the transmit holding
    register of its port, and has written nothing else. *)
Theorem uart_send_writes (H : uart_h) (fuel : nat) (idx : Z) (buf : Z -> Z)
        (len : Z) (w w' : world) :
  0 <= len < U32.modulus ->
  uart_send H fuel idx buf len w = Ret tt w' ->
  exists uart,
    uart_at H idx w = Ret uart w /\
    writes (log w') = rev (sent uart buf 0 (Z.to_nat len)) ++ writes (log w).
Proof.
  intros Hlen R. unfold uart_send, bind in R.
  unfold uart_at in *. destruct (base_offset idx) as [off|]; [|discriminate].
  cbn [ret] in R. exists (U32.add (UART_BASE H) off). split; [reflexivity|].
  apply (send_loop_writes H _ buf len Hlen) in R; [|lia].
  rewrite Z.sub_0_r in R. exact (proj1 R).
Qed.

Lemma wait_lsr_ready (uart mask : Z) (f : nat) (w : world) :
  Z.land (lsr_in (hw w) (lsr_n w)) mask <> 0 ->
  exists w',
    wait_lsr (S f) uart mask w = Ret tt w' /\
    hw w' = hw w /\ lsr_n w' = S (lsr_n w) /\ rbr_n w' = rbr_n w /\
    regs w' = regs w.
Proof.
  intros Hm. cbn [wait_lsr]. prims.
  destruct (Z.eqb_spec (Z.land (lsr_in (hw w) (lsr_n w)) mask) 0) as [E|_];
    [contradiction|].
  prims. eexists. repeat split; reflexivity.
Qed.

Lemma wait_lsr_never (uart mask : Z) :
  forall (fuel : nat) (w : world),
    (forall k, (lsr_n w <= k)%nat -> Z.land (lsr_in (hw w) k) mask = 0) ->
    wait_lsr fuel uart mask w = OutOfFuel.
Proof.
  induction fuel as [|f IH]; intros w Hm; [reflexivity|].
  cbn [wait_lsr]. prims.
  rewrite (proj2 (Z.eqb_eq _ _) (Hm (lsr_n w) (le_n _))).
  apply IH. cbn [lsr_n hw]. intros k Hk. apply Hm. lia.
Qed.

Lemma send_loop_ready (H : uart_h) (uart : Z) (buf : Z -> Z) (len : Z) :
  0 <= len < U32.modulus ->
  forall (fuel : nat) (i : Z) (w : world),
    0 <= i <= len ->
    (Z.to_nat (len - i) < fuel)%nat ->
    (forall k, (lsr_n w <= k)%nat ->
               Z.land (lsr_in (hw w) k) (UART_LSR_THRE H) <> 0) ->
    exists w',
      send_loop H fuel uart buf len i w = Ret tt w' /\
      lsr_n w' = (lsr_n w + Z.to_nat (len - i))%nat.
Proof.
  intros Hlen. induction fuel as [|f IH]; intros i w Hi Hf Hrdy; [lia|].
  cbn [send_loop]. destruct (Z.eqb_spec i len) as [->|Hne].
  - exists w. split; [reflexivity|]. rewrite Z.sub_diag. cbn. lia.
  - destruct f as [|f']; [lia|]. unfold bind.
    destruct (wait_lsr_ready uart (UART_LSR_THRE H) f' w (Hrdy _ (le_n _)))
      as (w1 & W & Wh & Wn & _).
    rewrite W. prims.
    assert (Ei : U32.add i 1 = i + 1)
      by (apply wrap_small; unfold U32.modulus in *; lia).
    rewrite Ei.
    match goal with |- context [send_loop H (S f') uart buf len (i + 1) ?w2] =>
      destruct (IH (i + 1) w2 ltac:(lia) ltac:(lia)) as (w' & R & N)
    end.
    { cbn [hw lsr_n]. rewrite Wh, Wn. intros k Hk. apply Hrdy. lia. }
    exists w'. split; [exact R|]. cbn [lsr_n] in N. lia.
Qed.

Lemma next_lsr_from (w : world) (P : Z -> Prop) :
  (forall k, P (next_lsr w k)) ->
  forall k, (lsr_n w <= k)%nat -> P (lsr_in (hw w) k).
Proof.
  intros Hn k Hk. replace k with (lsr_n w + (k - lsr_n w))%nat by lia.
  apply Hn.
Qed.

(** X2: when the transmit holding register is empty at every poll,
    uart_send returns (any fuel above the length is enough) after polling
    the line status exactly once per byte. *)
Theorem uart_send_ready (H : uart_h) (fuel : nat) (idx : Z) (buf : Z -> Z)
        (len : Z) (w : world) :
  0 <= idx < 5 ->
  0 <= len < U32.modulus ->
  (Z.to_nat len < fuel)%nat ->
  (forall k, Z.land (next_lsr w k) (UART_LSR_THRE H) <> 0) ->
  exists w',
    uart_send H fuel idx buf len w = Ret tt w' /\
    lsr_n w' = (lsr_n w + Z.to_nat len)%nat.
Proof.
  intros Hi Hlen Hf Hrdy.
  destruct (uart_at_in_range H idx w Hi) as (off & _ & Hat).
  unfold uart_send, bind. rewrite Hat.
  destruct (send_loop_ready H (U32.add (UART_BASE H) off) buf len Hlen fuel 0 w)
    as (w' & R & N).
  - lia.
  - rewrite Z.sub_0_r. exact Hf.
  - apply (next_lsr_from w (fun v => Z.land v (UART_LSR_THRE H) <> 0) Hrdy).
  - exists w'. split; [exact R|]. rewrite Z.sub_0_r in N. exact N.
Qed.

Lemma uart_send_ready_witness :
  exists w',
    uart_send sample_h 5 1 (fun j => j + 65) 4 (quiet_world 0) = Ret tt w' /\
    lsr_n w' = (lsr_n (quiet_world 0) + Z.to_nat 4)%nat.
Proof.
  apply (uart_send_ready sample_h 5 1 (fun j => j + 65) 4 (quiet_world 0)).
  - lia.
  - change U32.modulus with 4294967296. lia.
  - cbn. lia.
  - intros k. discriminate.
Defined.

(** X3: uart_send has no timeout: with at least one byte to send and
    a transmit holding register that never empties, no amount of fuel
    makes it return; with no byte to send it returns at once without
    touching the port. *)
Theorem uart_send_blocks (H : uart_h) (idx : Z) (buf : Z -> Z) (len : Z)
        (w : world) :
  0 <= idx < 5 ->
  (len <> 0 ->
   (forall k, Z.land (next_lsr w k) (UART_LSR_THRE H) = 0) ->
   forall fuel, uart_send H fuel idx buf len w = OutOfFuel) /\
  (forall fuel, uart_send H (S fuel) idx buf 0 w = Ret tt w).
Proof.
  intros Hi. destruct (uart_at_in_range H idx w Hi) as (off & _ & Hat).
  unfold uart_send, bind. rewrite Hat. split.
  - intros Hlen Hbusy fuel. destruct fuel as [|f]; [reflexivity|].
    cbn [send_loop]. destruct (Z.eqb_spec 0 len) as [E|_]; [congruence|].
    unfold bind. rewrite wait_lsr_never; [reflexivity|].
    apply (next_lsr_from w (fun v => Z.land v (UART_LSR_THRE H) = 0) Hbusy).
  - intros fuel. reflexivity.
Qed.

Lemma uart_send_blocks_witness :
  uart_send sample_h 100 0 (fun _ => 65) 1 stuck_world = OutOfFuel /\
  uart_send sample_h 1 0 (fun _ => 65) 0 stuck_world = Ret tt stuck_world.
Proof.
  destruct (uart_send_blocks sample_h 0 (fun _ => 65) 1 stuck_world ltac:(lia))
    as (Hb & _).
  destruct (uart_send_blocks sample_h 0 (fun _ => 65) 0 stuck_world ltac:(lia))
    as (_ & He).
  split; [|exact (He O)].
  apply Hb; [discriminate|]. intros k. reflexivity.
Defined.

Lemma uart_send_writes_witness :
  exists w' uart,
    uart_send sample_h 5 1 (fun j => j + 65) 2 (quiet_world 0) = Ret tt w' /\
    uart_at sample_h 1 (quiet_world 0) = Ret uart (quiet_world 0) /\
    writes (log w') = [EvWrite uart UART_THR_DLAB 66; EvWrite uart UART_THR_DLAB 65].
Proof.
  destruct (uart_send sample_h 5 1 (fun j => j + 65) 2 (quiet_world 0))
    as [[] w'| |] eqn:R.
  - destruct (uart_send_writes sample_h 5 1 (fun j => j + 65) 2 (quiet_world 0) w')
      as (uart & Hat & Hw).
    + change U32.modulus with 4294967296. lia.
    + exact R.
    + exists w', uart. split; [reflexivity|]. split; [exact Hat|]. exact Hw.
  - vm_compute in R. discriminate.
  - vm_compute in R. discriminate.
Defined.

(** * uart_wait_xfer *)

(** X4: the wait for an idle transmitter has no timeout: when TX_IDLE
    is requested and the transmitter-idle bit never shows, no amount of
    fuel makes uart_wait_xfer return. *)
Theorem uart_wait_xfer_tx_blocks (H : uart_h) (idx which : Z) (w : world) :
  0 <= idx < 5 ->
  Z.land (UART_TX_IDLE H) which <> 0 ->
  (forall k, Z.land (next_lsr w k) (UART_LSR_TMTY H) = 0) ->
  forall fuel, uart_wait_xfer H fuel idx which w = OutOfFuel.
Proof.
  intros Hi Htx Hbusy fuel.
  destruct (uart_at_in_range H idx w Hi) as (off & _ & Hat).
  unfold uart_wait_xfer. unfold bind at 1. rewrite Hat.
  destruct (Z.eqb_spec (Z.land (UART_TX_IDLE H) which) 0) as [E|_];
    [contradiction|].
  unfold bind. rewrite wait_lsr_never; [reflexivity|].
  apply (next_lsr_from w (fun v => Z.land v (UART_LSR_TMTY H) = 0) Hbusy).
Qed.

Lemma uart_wait_xfer_tx_blocks_witness :
  uart_wait_xfer sample_h 100 2 1 stuck_world = OutOfFuel.
Proof.
  apply (uart_wait_xfer_tx_blocks sample_h 2 1 stuck_world).
  - lia.
  - discriminate.
  - intros k. reflexivity.
Defined.

Lemma wait_lsr_post (uart mask : Z) :
  forall (fuel : nat) (w w' : world),
    wait_lsr fuel uart mask w = Ret tt w' ->
    exists v rest,
      log w' = EvRead uart UART_LSR v :: rest ++ log w /\
      Z.land v mask <> 0 /\ forallb is_read rest = true.
Proof.
  induction fuel as [|f IH]; intros w w' R; [discriminate|].
  cbn [wait_lsr] in R. prims_in R.
  destruct (Z.eqb_spec (Z.land (lsr_in (hw w) (lsr_n w)) mask) 0) as [E|E].
  - apply IH in R. cbn [log] in R. destruct R as (v & rest & Rl & Rm & Rr).
    exists v, (rest ++ [EvRead uart UART_LSR (lsr_in (hw w) (lsr_n w))]).
    split; [rewrite Rl, <- app_assoc; reflexivity|]. split; [exact Rm|].
    rewrite forallb_app, Rr. reflexivity.
  - prims_in R. inversion R; subst. cbn [log].
    exists (lsr_in (hw w) (lsr_n w)), []. repeat split. exact E.
Qed.

Lemma drain_rbr_post (H : uart_h) (uart : Z) :
  forall (fuel : nat) (w w' : world),
    drain_rbr H fuel uart w = Ret tt w' ->
    exists v rest,
      log w' = EvRead uart UART_LSR v :: rest ++ log w /\
      Z.land v (UART_LSR_RDR H) = 0 /\ forallb is_read rest = true.
Proof.
  induction fuel as [|f IH]; intros w w' R; [discriminate|].
  cbn [drain_rbr] in R. prims_in R.
  destruct (Z.eqb_spec (Z.land (lsr_in (hw w) (lsr_n w)) (UART_LSR_RDR H)) 0)
    as [E|E].
  - prims_in R. inversion R; subst. cbn [log].
    exists (lsr_in (hw w) (lsr_n w)), []. repeat split. exact E.
  - prims_in R. apply IH in R. cbn [log] in R.
    destruct R as (v & rest & Rl & Rm & Rr).
    exists v, (rest ++ [EvRead uart UART_THR_DLAB (rbr_in (hw w) (rbr_n w));
                        EvRead uart UART_LSR (lsr_in (hw w) (lsr_n w))]).
    split; [rewrite Rl, <- app_assoc; reflexivity|]. split; [exact Rm|].
    rewrite forallb_app, Rr. reflexivity.
Qed.

(** X5: uart_wait_xfer only reads: it writes no register.  When it
    returns with TX_IDLE requested it has seen the transmitter-idle bit
    set, and when it returns with RX_RDYR requested the last thing it did
    was to read a line status with the receiver-data-ready bit clear. *)
Theorem uart_wait_xfer_post (H : uart_h) (fuel : nat) (idx which : Z)
        (w w' : world) :
  uart_wait_xfer H fuel idx which w = Ret tt w' ->
  exists uart evs,
    uart_at H idx w = Ret uart w /\
    log w' = evs ++ log w /\ forallb is_read evs = true /\
    regs w' = regs w /\
    (Z.land (UART_TX_IDLE H) which <> 0 ->
     exists v, In (EvRead uart UART_LSR v) evs /\
               Z.land v (UART_LSR_TMTY H) <> 0) /\
    (Z.land (UART_RX_RDYR H) which <> 0 ->
     exists v rest, evs = EvRead uart UART_LSR v :: rest /\
                    Z.land v (UART_LSR_RDR H) = 0).
Proof.
  intros R. unfold uart_wait_xfer, uart_at in *.
  destruct (base_offset idx) as [off|]; [|discriminate].
  unfold bind in R. cbn [ret] in R.
  set (uart := U32.add (UART_BASE H) off) in *.
  exists uart.
  assert (T : exists w1 evs1,
             log w1 = evs1 ++ log w /\ forallb is_read evs1 = true /\
             regs w1 = regs w /\
             (Z.land (UART_TX_IDLE H) which <> 0 ->
              exists v, In (EvRead uart UART_LSR v) evs1 /\
                        Z.land v (UART_LSR_TMTY H) <> 0) /\
             (if Z.land (UART_RX_RDYR H) which =? 0 then ret tt
              else drain_rbr H fuel uart) w1 = Ret tt w').
  { destruct (Z.eqb_spec (Z.land (UART_TX_IDLE H) which) 0) as [E|E].
    - exists w, []. repeat split; [contradiction|exact R].
    - destruct (wait_lsr fuel uart (UART_LSR_TMTY H) w) as [[] w1| |] eqn:W;
        try discriminate.
      destruct (wait_lsr_frame _ _ _ _ _ W) as (Wr & _ & _).
      destruct (wait_lsr_post _ _ _ _ _ W) as (v & rest & Wl & Wm & Wrd).
      exists w1, (EvRead uart UART_LSR v :: rest).
      split; [exact Wl|]. split; [exact Wrd|]. split; [exact Wr|].
      split; [|exact R]. intros _. exists v. split; [left; reflexivity|exact Wm]. }
  destruct T as (w1 & evs1 & Tl & Tr & Tg & Ttx & R2).
  destruct (Z.eqb_spec (Z.land (UART_RX_RDYR H) which) 0) as [E|E].
  - inversion R2; subst. exists evs1. split; [reflexivity|].
    repeat split; try assumption. contradiction.
  - destruct (drain_rbr_frame _ _ _ _ _ R2) as (Rr & _ & _).
    destruct (drain_rbr_post _ _ _ _ _ R2) as (v & rest & Rl & Rm & Rrd).
    exists (EvRead uart UART_LSR v :: rest ++ evs1).
    split; [reflexivity|]. split.
    { rewrite Rl, Tl, app_assoc. reflexivity. }
    split.
    { cbn [forallb is_read]. rewrite forallb_app, Rrd, Tr. reflexivity. }
    split; [congruence|]. split.
    + intros Htx. destruct (Ttx Htx) as (v' & Hin & Hv').
      exists v'. split; [|exact Hv']. right. apply in_or_app. right. exact Hin.
    + intros _. exists v, (rest ++ evs1). split; [reflexivity|exact Rm].
Qed.

Lemma uart_wait_xfer_post_witness :
  exists w' uart evs,
    uart_wait_xfer sample_h 3 0 3 (quiet_world 0) = Ret tt w' /\
    uart_at sample_h 0 (quiet_world 0) = Ret uart (quiet_world 0) /\
    log w' = evs ++ log (quiet_world 0) /\ forallb is_read evs = true.
Proof.
  destruct (uart_wait_xfer sample_h 3 0 3 (quiet_world 0)) as [[] w'| |] eqn:R.
  - destruct (uart_wait_xfer_post sample_h 3 0 3 (quiet_world 0) w' R)
      as (uart & evs & Hat & Hl & Hr & _).
    exists w', uart, evs. repeat split; assumption.
  - vm_compute in R. discriminate.
  - vm_compute in R. discriminate.
Defined.

Lemma drain_rbr_pending (H : uart_h) (uart : Z) :
  forall (n fuel : nat) (w : world),
    (forall k, (k < n)%nat ->
               Z.land (lsr_in (hw w) (lsr_n w + k)) (UART_LSR_RDR H) <> 0) ->
    Z.land (lsr_in (hw w) (lsr_n w + n)) (UART_LSR_RDR H) = 0 ->
    (n < fuel)%nat ->
    exists w',
      drain_rbr H fuel uart w = Ret tt w' /\
      lsr_n w' = (lsr_n w + n + 1)%nat /\ rbr_n w' = (rbr_n w + n)%nat.
Proof.
  induction n as [|n IH]; intros fuel w Hpend Hend Hf;
    (destruct fuel as [|f]; [lia|]); cbn [drain_rbr]; prims.
  - rewrite Nat.add_0_r in Hend. rewrite (proj2 (Z.eqb_eq _ _) Hend). prims.
    eexists. split; [reflexivity|]. cbn [lsr_n rbr_n]. lia.
  - pose proof (Hpend O ltac:(lia)) as H0. rewrite Nat.add_0_r in H0.
    destruct (Z.eqb_spec (Z.land (lsr_in (hw w) (lsr_n w)) (UART_LSR_RDR H)) 0)
      as [E|_]; [contradiction|].
    prims.
    match goal with |- context [drain_rbr H f uart ?w1] =>
      destruct (IH f w1) as (w' & R & Nl & Nr)
    end.
    + cbn [hw lsr_n]. intros k Hk.
      replace (S (lsr_n w) + k)%nat with (lsr_n w + S k)%nat by lia.
      apply Hpend. lia.
    + cbn [hw lsr_n].
      replace (S (lsr_n w) + n)%nat with (lsr_n w + S n)%nat by lia.
      exact Hend.
    + lia.
    + exists w'. split; [exact R|]. cbn [lsr_n rbr_n] in Nl, Nr. lia.
Qed.

(** X6: asked to flush the receiver only, uart_wait_xfer discards
    exactly the bytes that are waiting: with the receiver-data-ready bit
    set at the first [n] polls and clear at the next one, it returns (any
    fuel above [n] is enough) after reading the receive buffer [n] times
    and the line status [n + 1] times. *)
Theorem uart_wait_xfer_flush (H : uart_h) (fuel : nat) (idx which : Z)
        (n : nat) (w : world) :
  0 <= idx < 5 ->
  Z.land (UART_TX_IDLE H) which = 0 ->
  Z.land (UART_RX_RDYR H) which <> 0 ->
  (forall k, (k < n)%nat -> Z.land (next_lsr w k) (UART_LSR_RDR H) <> 0) ->
  Z.land (next_lsr w n) (UART_LSR_RDR H) = 0 ->
  (n < fuel)%nat ->
  exists w',
    uart_wait_xfer H fuel idx which w = Ret tt w' /\
    rbr_n w' = (rbr_n w + n)%nat /\
    lsr_n w' = (lsr_n w + n + 1)%nat.
Proof.
  intros Hi Htx Hrx Hpend Hend Hf.
  destruct (uart_at_in_range H idx w Hi) as (off & _ & Hat).
  unfold uart_wait_xfer. unfold bind at 1. rewrite Hat.
  rewrite (proj2 (Z.eqb_eq _ _) Htx).
  destruct (Z.eqb_spec (Z.land (UART_RX_RDYR H) which) 0) as [E|_];
    [contradiction|].
  unfold bind. cbn [ret].
  destruct (drain_rbr_pending H (U32.add (UART_BASE H) off) n fuel w Hpend Hend Hf)
    as (w' & R & Nl & Nr).
  exists w'. split; [exact R|]. split; [exact Nr|exact Nl].
Qed.

Lemma uart_wait_xfer_flush_witness :
  exists w',
    uart_wait_xfer sample_h 3 0 2 burst_world = Ret tt w' /\
    rbr_n w' = (rbr_n burst_world + 2)%nat /\
    lsr_n w' = (lsr_n burst_world + 2 + 1)%nat.
Proof.
  apply (uart_wait_xfer_flush sample_h 3 0 2 2 burst_world).
  - lia.
  - reflexivity.
  - discriminate.
  - intros k Hk. destruct k as [|[|k]]; [discriminate|discriminate|lia].
  - reflexivity.
  - lia.
Defined.

(** * uart_get_IIR and uart_set_IIR *)

Lemma land_u32_bounds (a b : Z) :
  0 <= b < U32.modulus -> 0 <= Z.land a b <= b.
Proof.
  intros Hb. split.
  - apply Z.land_nonneg. right. lia.
  - assert (E : Z.ldiff (Z.land a b) b = 0).
    { apply Z.bits_inj'. intros n Hn.
      rewrite Z.ldiff_spec, Z.land_spec, Z.bits_0.
      destruct (Z.testbit a n), (Z.testbit b n); reflexivity. }
    apply Z.sub_nocarry_ldiff in E.
    assert (N : 0 <= Z.ldiff b (Z.land a b)) by (apply Z.ldiff_nonneg; left; lia).
    lia.
Qed.

(** X7: uart_get_IIR reads the interrupt identification once and
    writes nothing.  It returns 0 exactly when the no-interrupt bit is set
    in the masked value; otherwise it returns half the masked value plus
    one, which lies between 1 and half the mask plus one. *)
Theorem uart_get_IIR_encoding (H : uart_h) (idx : Z) (w : world) :
  0 <= idx < 5 ->
  0 <= UART_IIR_INT_MASK H < U32.modulus ->
  let v := iir_in (hw w) (iir_n w) in
  let iir := Z.land v (UART_IIR_INT_MASK H) in
  exists uart r w',
    uart_at H idx w = Ret uart w /\
    uart_get_IIR H idx w = Ret r w' /\
    regs w' = regs w /\
    log w' = EvRead uart UART_IIR_FCR v :: log w /\
    (Z.land iir (UART_IIR_NO_INT H) <> 0 -> r = 0) /\
    (Z.land iir (UART_IIR_NO_INT H) = 0 ->
     r = iir / 2 + 1 /\ 1 <= r <= UART_IIR_INT_MASK H / 2 + 1).
Proof.
  intros Hi Hm v iir.
  destruct (uart_at_in_range H idx w Hi) as (off & _ & Hat).
  exists (U32.add (UART_BASE H) off).
  unfold uart_get_IIR. unfold bind at 1. rewrite Hat. prims.
  fold v. fold iir.
  pose proof (land_u32_bounds v _ Hm) as Hb. fold iir in Hb.
  assert (Hh : 0 <= iir / 2 <= UART_IIR_INT_MASK H / 2).
  { split; [apply Z.div_pos; lia | apply Z.div_le_mono; lia]. }
  assert (Hq : UART_IIR_INT_MASK H / 2 < 2147483648).
  { apply Z.div_lt_upper_bound; [lia|]. unfold U32.modulus in Hm.
    change (2 ^ 32) with 4294967296 in Hm. lia. }
  destruct (Z.eqb_spec (Z.land iir (UART_IIR_NO_INT H)) 0) as [E|E].
  - eexists. eexists. split; [reflexivity|]. split; [reflexivity|].
    split; [reflexivity|]. split; [reflexivity|]. split; [contradiction|].
    intros _. rewrite Z.shiftr_div_pow2 by lia. change (2 ^ 1) with 2.
    unfold U32.add. rewrite wrap_small
      by (unfold U32.modulus; change (2 ^ 32) with 4294967296; lia).
    lia.
  - eexists. eexists. split; [reflexivity|]. split; [reflexivity|].
    split; [reflexivity|]. split; [reflexivity|]. split; [reflexivity|].
    contradiction.
Qed.

Lemma uart_get_IIR_encoding_witness :
  exists r w',
    uart_get_IIR sample_h 4 (quiet_world 0) = Ret r w' /\ r = 0.
Proof.
  destruct (uart_get_IIR_encoding sample_h 4 (quiet_world 0))
    as (uart & r & w' & _ & R & _ & _ & Hno & _).
  - lia.
  - change U32.modulus with 4294967296. cbn. lia.
  - exists r, w'. split; [exact R|]. apply Hno. discriminate.
Defined.

(** X8: uart_set_IIR pulses the end-of-received-data enable: it
    writes the interrupt enable register twice, first with the bit clear
    and then with it set, changes no other bit of the register and writes
    no other register. *)
Theorem uart_set_IIR_pulse (H : uart_h) (idx : Z) (w : world) :
  0 <= idx < 5 ->
  exists uart w' v1 v2,
    uart_at H idx w = Ret uart w /\
    uart_set_IIR H idx w = Ret tt w' /\
    writes (log w') = EvWrite uart UART_IER_DLAB v2
                      :: EvWrite uart UART_IER_DLAB v1 :: writes (log w) /\
    Z.land v1 (UART_IER_DLAB_IE_EORD H) = 0 /\
    Z.land v2 (UART_IER_DLAB_IE_EORD H) = UART_IER_DLAB_IE_EORD H /\
    regs w' uart UART_IER_DLAB = v2 /\
    (forall n, 0 <= n < 32 -> Z.testbit (UART_IER_DLAB_IE_EORD H) n = false ->
       Z.testbit v1 n = Z.testbit (regs w uart UART_IER_DLAB) n /\
       Z.testbit v2 n = Z.testbit (regs w uart UART_IER_DLAB) n) /\
    (forall a r, (a, r) <> (uart, UART_IER_DLAB) -> regs w' a r = regs w a r).
Proof.
  intros Hi. destruct (uart_at_in_range H idx w Hi) as (off & _ & Hat).
  set (uart := U32.add (UART_BASE H) off) in *.
  set (v := regs w uart UART_IER_DLAB).
  set (v1 := Z.land v (U32.not (UART_IER_DLAB_IE_EORD H))).
  exists uart. eexists. exists v1, (Z.lor v1 (UART_IER_DLAB_IE_EORD H)).
  split; [exact Hat|].
  unfold uart_set_IIR. unfold bind at 1. rewrite Hat. prims.
  fold v. fold v1. rewrite !upd_same.
  split; [reflexivity|]. cbn [log regs]. split; [reflexivity|].
  split; [apply land_not_clear|]. split; [apply land_lor_set|].
  split; [apply upd_same|]. split.
  - intros n Hn He.
    assert (E1 : Z.testbit v1 n = Z.testbit v n).
    { unfold v1. rewrite Z.land_spec, not_testbit, He by lia.
      destruct (Z.ltb_spec n 32); [|lia]. apply andb_true_r. }
    split; [exact E1|]. rewrite Z.lor_spec, He, E1. apply orb_false_r.
  - intros a r Hne. rewrite !upd_other by exact Hne. reflexivity.
Qed.

Lemma uart_set_IIR_pulse_witness :
  exists uart w' v1 v2,
    uart_at sample_h 3 (quiet_world 7) = Ret uart (quiet_world 7) /\
    uart_set_IIR sample_h 3 (quiet_world 7) = Ret tt w' /\
    writes (log w') = EvWrite uart UART_IER_DLAB v2
                      :: EvWrite uart UART_IER_DLAB v1
                      :: writes (log (quiet_world 7)).
Proof.
  destruct (uart_set_IIR_pulse sample_h 3 (quiet_world 7))
    as (uart & w' & v1 & v2 & Hat & R & Hw & _).
  - lia.
  - exists uart, w', v1, v2. repeat split; assumption.
Defined.

(** * More on uart_invert, uart_set_mode and the port table *)

(** X9: uart_invert is idempotent: a second call with the same flag
    and mask leaves every register as the first call left it. *)
Theorem uart_invert_idempotent (H : uart_h) (idx : Z) (enable : bool)
        (mask : Z) (w : world) :
  0 <= idx < 5 ->
  exists w1 w2,
    uart_invert H idx enable mask w = Ret tt w1 /\
    uart_invert H idx enable mask w1 = Ret tt w2 /\
    forall a r, regs w2 a r = regs w1 a r.
Proof.
  intros Hi. destruct (uart_at_in_range H idx w Hi) as (off & Hoff & _).
  destruct (uart_invert_run H idx off enable mask w Hoff)
    as (w1 & R1 & G1 & _).
  destruct (uart_invert_run H idx off enable mask w1 Hoff)
    as (w2 & R2 & G2 & _).
  exists w1, w2. split; [exact R1|]. split; [exact R2|].
  intros a r. rewrite G2.
  set (uart := U32.add (UART_BASE H) off) in *.
  destruct (Z.eq_dec a uart) as [->|Ha].
  - destruct (reg_eqb_spec r UART_IRDA_CSR) as [->|Hr].
    + rewrite upd_same. rewrite G1, upd_same. destruct enable.
      * rewrite <- Z.lor_assoc, Z.lor_diag. reflexivity.
      * rewrite <- Z.land_assoc, Z.land_diag. reflexivity.
    + apply upd_other. congruence.
  - apply upd_other. congruence.
Qed.

Lemma uart_invert_idempotent_witness :
  exists w1 w2,
    uart_invert sample_h 2 true 5 (quiet_world 2) = Ret tt w1 /\
    uart_invert sample_h 2 true 5 w1 = Ret tt w2 /\
    forall a r, regs w2 a r = regs w1 a r.
Proof. apply (uart_invert_idempotent sample_h 2 true 5 (quiet_world 2)). lia. Defined.

(** X10: the five ports have five different register blocks,
    whatever the peripheral base address is; uart_set_mode overwrites the
    modem control register of its port with the mode it is given, without
    merging, and every register of the other ports keeps its value. *)
Theorem uart_set_mode_own_port (H : uart_h) (idx idx' mode : Z) (w : world) :
  0 <= idx < 5 ->
  0 <= idx' < 5 ->
  idx' <> idx ->
  exists uart uart' w',
    uart_at H idx w = Ret uart w /\
    uart_at H idx' w = Ret uart' w /\
    uart' <> uart /\
    uart_set_mode H idx mode w = Ret tt w' /\
    regs w' uart UART_MCR = mode /\
    (forall r, regs w' uart' r = regs w uart' r) /\
    writes (log w') = EvWrite uart UART_MCR mode :: writes (log w).
Proof.
  intros Hi Hi' Hne.
  unfold uart_set_mode, uart_at, bind.
  rewrite (base_offset_in_range idx Hi), (base_offset_in_range idx' Hi').
  cbn [ret]. prims.
  set (off := nth (Z.to_nat idx) _uart_base_offsets 0).
  set (off' := nth (Z.to_nat idx') _uart_base_offsets 0).
  assert (D : U32.add (UART_BASE H) off' <> U32.add (UART_BASE H) off).
  { assert (Ho : 0 <= off <= 1024 /\ 0 <= off' <= 1024 /\ off' <> off).
    { unfold off, off'.
      assert (C : idx = 0 \/ idx = 1 \/ idx = 2 \/ idx = 3 \/ idx = 4) by lia.
      assert (C' : idx' = 0 \/ idx' = 1 \/ idx' = 2 \/ idx' = 3 \/ idx' = 4) by lia.
      destruct C as [-> | [-> | [-> | [-> | ->]]]];
        destruct C' as [-> | [-> | [-> | [-> | ->]]]];
        cbv [nth _uart_base_offsets Z.to_nat Pos.to_nat Pos.iter_op Nat.add];
        lia. }
    unfold U32.add, U32.wrap, U32.modulus. intros E.
    change (2 ^ 32) with 4294967296 in E.
    pose proof (Z.div_mod (UART_BASE H + off) 4294967296 ltac:(lia)) as E1.
    pose proof (Z.div_mod (UART_BASE H + off') 4294967296 ltac:(lia)) as E2.
    rewrite E in E2. lia. }
  do 3 eexists. split; [reflexivity|]. split; [reflexivity|].
  split; [exact D|]. split; [reflexivity|]. cbn [regs log].
  split; [apply upd_same|]. split; [|reflexivity].
  intros r. apply upd_other. congruence.
Qed.

Lemma uart_set_mode_own_port_witness :
  exists uart uart' w',
    uart_at sample_h 0 (quiet_world 0) = Ret uart (quiet_world 0) /\
    uart_at sample_h 1 (quiet_world 0) = Ret uart' (quiet_world 0) /\
    uart' <> uart /\
    uart_set_mode sample_h 0 0x22 (quiet_world 0) = Ret tt w' /\
    regs w' uart UART_MCR = 0x22 /\
    (forall r, regs w' uart' r = regs (quiet_world 0) uart' r) /\
    writes (log w') = EvWrite uart UART_MCR 0x22 :: writes (log (quiet_world 0)).
Proof.
  apply (uart_set_mode_own_port sample_h 0 1 0x22 (quiet_world 0)); lia.
Defined.

(** * More on uart_recv *)

(** X11: with RTS clear in the modem control register at entry,
    uart_recv leaves flow control alone: a call that returns has written
    no register, and every register holds what it held. *)
Theorem uart_recv_automatic (H : uart_h) (fuel : nat) (idx : Z)
        (buf : Z -> Z) (len : Z) (w : world) (uart : Z)
        (r : Z * (Z -> Z)) (w' : world) :
  uart_at H idx w = Ret uart w ->
  Z.land (regs w uart UART_MCR) (UART_MCR_RTS H) = 0 ->
  uart_recv H fuel idx buf len w = Ret r w' ->
  regs w' = regs w /\
  exists evs, log w' = evs ++ log w /\ writes evs = [].
Proof.
  intros Hat Hrts R.
  destruct (recv_begin_run H uart w) as (w1 & Hb & _ & _ & _ & _ & Hregs & Hlog).
  rewrite (proj2 (Z.eqb_eq _ _) Hrts) in Hb, Hregs, Hlog.
  cbn [negb app] in Hb, Hregs, Hlog.
  unfold uart_recv, bind in R. rewrite Hat, Hb in R. cbn [fst snd] in R.
  destruct (recv_loop H fuel uart buf len 0 _ w1) as [r1 w2| |] eqn:L;
    try discriminate.
  destruct (recv_loop_frame _ _ _ _ _ _ _ _ _ _ L) as (Lr & _ & evs & Ll & Lw).
  cbn [recv_end ret] in R. inversion R; subst r1 w2; clear R.
  split; [congruence|].
  exists (evs ++ [EvTimer (U32.wrap (tmr_in (hw w) (tmr_n w)));
                  EvRead uart UART_MCR (regs w uart UART_MCR)]).
  split.
  - rewrite Ll, Hlog, <- app_assoc. reflexivity.
  - rewrite writes_app. cbn. rewrite app_nil_r.
    clear - Lw. induction evs as [|e evs IH]; [reflexivity|].
    cbn [existsb] in Lw. apply orb_false_elim in Lw. destruct Lw as (He & Lw).
    unfold writes in *. cbn [filter]. rewrite He. apply IH. exact Lw.
Qed.

Lemma uart_recv_automatic_witness :
  exists r w',
    uart_recv sample_h 5 0 (fun _ => 0) 2 (ready_world 0) = Ret r w' /\
    regs w' = regs (ready_world 0).
Proof.
  destruct (uart_recv sample_h 5 0 (fun _ => 0) 2 (ready_world 0))
    as [r w'| |] eqn:R.
  - exists r, w'. split; [reflexivity|].
    apply (uart_recv_automatic sample_h 5 0 (fun _ => 0) 2 (ready_world 0)
             0x70006000 r w').
    + vm_compute. reflexivity.
    + reflexivity.
    + exact R.
  - vm_compute in R. discriminate.
  - vm_compute in R. discriminate.
Defined.

(** A burst of [m] waiting bytes followed by silence: the loop stores the
    bytes and then leaves through the timeout, [d] being the number of
    timer readings that are still within the window after the last
    byte. *)
Lemma recv_loop_burst (H : uart_h) (uart len : Z) :
  forall (m fuel : nat) (buf : Z -> Z) (i timeout : Z) (w : world) (d : nat),
    0 <= i ->
    i + Z.of_nat m < U32.modulus ->
    (len = 0 \/ i + Z.of_nat m < len) ->
    (forall k, (k < m)%nat ->
               Z.land (lsr_in (hw w) (lsr_n w + k)) (UART_LSR_RDR H) <> 0) ->
    (forall k, (lsr_n w + m <= k)%nat ->
               Z.land (lsr_in (hw w) k) (UART_LSR_RDR H) = 0) ->
    let tfin := match m with
                | O => timeout
                | S m' => U32.add (U32.wrap (tmr_in (hw w) (tmr_n w + m'))) 250
                end in
    (forall j, (j < d)%nat ->
               U32.wrap (tmr_in (hw w) (tmr_n w + m + j)) <= tfin) ->
    tfin < U32.wrap (tmr_in (hw w) (tmr_n w + m + d)) ->
    (m + d + 1 < fuel)%nat ->
    exists buf' w',
      recv_loop H fuel uart buf len i timeout w = Ret (i + Z.of_nat m, buf') w' /\
      (forall j, i <= j < i + Z.of_nat m ->
         buf' j = U32.to_u8 (rbr_in (hw w) (rbr_n w + Z.to_nat (j - i)))) /\
      (forall j, j < i \/ i + Z.of_nat m <= j -> buf' j = buf j) /\
      tmr_n w' = (tmr_n w + m + d + 1)%nat /\
      rbr_n w' = (rbr_n w + m)%nat.
Proof.
  induction m as [|m IH];
    intros fuel buf i timeout w d Hi Hmax Hlen Hrdy Hsil tfin Hlow Hhi Hf;
    (destruct fuel as [|f]; [lia|]); cbn [recv_loop].
  - assert (Ef : recv_full len i = false).
    { unfold recv_full. destruct Hlen as [->|Hl]; [reflexivity|].
      destruct (Z.leb_spec len i); [lia|]. apply andb_false_r. }
    rewrite Ef. unfold bind. subst tfin.
    destruct (recv_wait_timeout H uart timeout d f w) as (w' & R & Ht & Hr & _).
    + intros k Hk. apply Hsil. lia.
    + intros j Hj. specialize (Hlow j Hj). rewrite Nat.add_0_r in Hlow. exact Hlow.
    + rewrite Nat.add_0_r in Hhi. exact Hhi.
    + lia.
    + rewrite R. cbn [ret]. exists buf, w'. rewrite Z.add_0_r.
      split; [reflexivity|]. split; [intros; lia|]. split; [reflexivity|].
      split; [lia|lia].
  - assert (Ef : recv_full len i = false).
    { unfold recv_full. destruct Hlen as [->|Hl]; [reflexivity|].
      destruct (Z.leb_spec len i); [lia|]. apply andb_false_r. }
    rewrite Ef. unfold bind. destruct f as [|f']; [lia|].
    cbn [recv_wait]. prims.
    pose proof (Hrdy O ltac:(lia)) as H0. rewrite Nat.add_0_r in H0.
    destruct (Z.eqb_spec (Z.land (lsr_in (hw w) (lsr_n w)) (UART_LSR_RDR H)) 0)
      as [E|_]; [contradiction|].
    prims.
    assert (Ei : U32.add i 1 = i + 1)
      by (apply wrap_small; unfold U32.modulus in *; lia).
    rewrite Ei.
    match goal with |- context [recv_loop H (S f') uart ?b len (i + 1) ?t ?w1] =>
      destruct (IH (S f') b (i + 1) t w1 d) as (buf' & w' & R & Bhi & Blo & Nt & Nr)
    end.
    + lia.
    + lia.
    + destruct Hlen as [Hl|Hl]; [left; exact Hl|right; lia].
    + cbn [hw lsr_n]. intros k Hk.
      replace (S (lsr_n w) + k)%nat with (lsr_n w + S k)%nat by lia.
      apply Hrdy. lia.
    + cbn [hw lsr_n]. intros k Hk. apply Hsil. lia.
    + cbn [hw tmr_n]. subst tfin. intros j Hj.
      replace (S (tmr_n w) + m + j)%nat with (tmr_n w + S m + j)%nat by lia.
      specialize (Hlow j Hj). destruct m as [|m'].
      * rewrite Nat.add_0_r in Hlow. exact Hlow.
      * replace (S (tmr_n w) + m')%nat with (tmr_n w + S m')%nat by lia.
        exact Hlow.
    + cbn [hw tmr_n]. subst tfin.
      replace (S (tmr_n w) + m + d)%nat with (tmr_n w + S m + d)%nat by lia.
      destruct m as [|m'].
      * rewrite Nat.add_0_r in Hhi. exact Hhi.
      * replace (S (tmr_n w) + m')%nat with (tmr_n w + S m')%nat by lia.
        exact Hhi.
    + lia.
    + exists buf', w'. cbn [hw rbr_n tmr_n] in *.
      replace (i + Z.of_nat (S m)) with (i + 1 + Z.of_nat m) by lia.
      split; [exact R|]. split; [|split; [|split; [lia|lia]]].
      * intros j Hj. destruct (Z.eq_dec j i) as [->|Hne].
        -- rewrite Blo by lia. unfold store. rewrite Z.eqb_refl.
           rewrite Z.sub_diag. cbn [Z.to_nat]. rewrite Nat.add_0_r. reflexivity.
        -- rewrite Bhi by lia. do 2 f_equal. lia.
      * intros j Hj. rewrite Blo by lia. unfold store.
        destruct (Z.eqb_spec j i); [lia|reflexivity].
Qed.

Lemma tmr_grows_from (w : world) :
  (forall k, next_tmr w k < next_tmr w (S k)) ->
  forall a k, next_tmr w a + Z.of_nat k <= next_tmr w (a + k).
Proof.
  intros Hinc a. induction k as [|k IH].
  - rewrite Nat.add_0_r. lia.
  - specialize (Hinc (a + k)%nat).
    replace (a + S k)%nat with (S (a + k)) by lia. lia.
Qed.

(** X12: a partial receive.  When [n] bytes are waiting (fewer than
    the length, or the length is 0) and the line then stays silent,
    against a microsecond counter that increases strictly and stays below
    2^32 during the call, uart_recv returns [n], with the [n] bytes at the
    start of the buffer in order and the rest of the buffer untouched.
    The inactivity window is counted from the reading taken after the
    last byte, not from the start of the call: the last timer reading the
    call takes is the first one more than 250 above that reading, so the
    call has read the timer once at the start, once after each byte and
    [d + 1] times while waiting. *)
Theorem uart_recv_partial (H : uart_h) (idx : Z) (buf : Z -> Z) (len : Z)
        (n : nat) (w : world) :
  0 <= idx < 5 ->
  len = 0 \/ Z.of_nat n < len ->
  Z.of_nat n < U32.modulus ->
  (forall k, (k < n)%nat -> Z.land (next_lsr w k) (UART_LSR_RDR H) <> 0) ->
  (forall k, (n <= k)%nat -> Z.land (next_lsr w k) (UART_LSR_RDR H) = 0) ->
  (forall k, next_tmr w k < next_tmr w (S k)) ->
  0 <= next_tmr w 0 ->
  next_tmr w (n + 251) < U32.modulus ->
  exists d,
    (d <= 250)%nat /\
    next_tmr w n + 250 < next_tmr w (n + 1 + d) /\
    (forall j, (j < d)%nat -> next_tmr w (n + 1 + j) <= next_tmr w n + 250) /\
    forall fuel, (n + d + 1 < fuel)%nat ->
      exists buf' w',
        uart_recv H fuel idx buf len w = Ret (Z.of_nat n, buf') w' /\
        tmr_n w' = (tmr_n w + n + d + 2)%nat /\
        rbr_n w' = (rbr_n w + n)%nat /\
        (forall j, 0 <= j < Z.of_nat n ->
           buf' j = U32.to_u8 (next_rbr w (Z.to_nat j))) /\
        (forall j, j < 0 \/ Z.of_nat n <= j -> buf' j = buf j).
Proof.
  intros Hi Hlen Hn Hrdy Hsil Hinc H0 Hmax.
  pose proof (tmr_grows_from w Hinc) as Hgrow.
  assert (Hrange : forall k, (k <= n + 251)%nat -> 0 <= next_tmr w k < U32.modulus).
  { intros k Hk. split.
    - pose proof (Hgrow O k) as G. cbn [Nat.add] in G. lia.
    - pose proof (Hgrow k (n + 251 - k)%nat) as G.
      replace (k + (n + 251 - k))%nat with (n + 251)%nat in G by lia. lia. }
  destruct (first_above (fun j => next_tmr w (n + 1 + j)) (next_tmr w n + 250) 250%nat)
    as (d & Hd & Hhi & Hlow).
  { cbn beta. pose proof (Hgrow n 251%nat) as G.
    replace (n + 1 + 250)%nat with (n + 251)%nat by lia. lia. }
  cbn beta in Hhi, Hlow.
  exists d. split; [exact Hd|]. split; [exact Hhi|]. split; [exact Hlow|].
  intros fuel Hf.
  destruct (uart_at_in_range H idx w Hi) as (off & _ & Hat).
  set (uart := U32.add (UART_BASE H) off) in *.
  destruct (recv_begin_run H uart w) as (w1 & Hb & Hhw & Hl & Hr & Ht & _).
  set (t0 := U32.add (U32.wrap (tmr_in (hw w) (tmr_n w))) 250) in *.
  assert (Etfin : match n with
                  | O => t0
                  | S m' => U32.add (U32.wrap (tmr_in (hw w1) (tmr_n w1 + m'))) 250
                  end = next_tmr w n + 250).
  { pose proof (Hrange n ltac:(lia)) as Rn.
    pose proof (Hrange (n + 1 + d)%nat ltac:(lia)) as Rd.
    assert (E : U32.add (U32.wrap (next_tmr w n)) 250 = next_tmr w n + 250).
    { rewrite (wrap_small _ Rn). apply wrap_small. lia. }
    destruct n as [|m'].
    - unfold t0. unfold next_tmr in E |- *. rewrite Nat.add_0_r in E |- *. exact E.
    - rewrite Hhw, Ht.
      replace (S (tmr_n w) + m')%nat with (tmr_n w + S m')%nat by lia.
      exact E. }
  destruct (recv_loop_burst H uart len n fuel buf 0 t0 w1 d)
    as (buf' & w2 & R & Bhi & Blo & Nt & Nr).
  - lia.
  - lia.
  - destruct Hlen as [Hl0|Hl0]; [left; exact Hl0|right; lia].
  - intros k Hk. rewrite Hhw, Hl. apply Hrdy. exact Hk.
  - intros k Hk. rewrite Hhw.
    replace k with (lsr_n w + (k - lsr_n w))%nat by lia. apply Hsil. lia.
  - cbv zeta. rewrite Etfin. intros j Hj. rewrite Hhw, Ht.
    replace (S (tmr_n w) + n + j)%nat with (tmr_n w + (n + 1 + j))%nat by lia.
    fold (next_tmr w (n + 1 + j)).
    rewrite (wrap_small _ (Hrange (n + 1 + j)%nat ltac:(lia))).
    apply Hlow. exact Hj.
  - cbv zeta. rewrite Etfin. rewrite Hhw, Ht.
    replace (S (tmr_n w) + n + d)%nat with (tmr_n w + (n + 1 + d))%nat by lia.
    fold (next_tmr w (n + 1 + d)).
    rewrite (wrap_small _ (Hrange (n + 1 + d)%nat ltac:(lia))). exact Hhi.
  - exact Hf.
  - destruct (recv_end_run H uart
                (negb (Z.land (regs w uart UART_MCR) (UART_MCR_RTS H) =? 0)) w2)
      as (w' & He & _ & _ & Re & Te & _).
    exists buf', w'. unfold uart_recv, bind. rewrite Hat, Hb. cbn [fst snd].
    fold t0. rewrite R, He. cbn [ret]. rewrite Z.add_0_l.
    split; [reflexivity|].
    split; [rewrite Te, Nt, Ht; lia|].
    split; [rewrite Re, Nr, Hr; reflexivity|]. split.
    + intros j Hj. rewrite Bhi by lia. rewrite Hhw, Hr, Z.sub_0_r. reflexivity.
    + intros j Hj. apply Blo. lia.
Qed.

Lemma uart_recv_partial_witness :
  exists buf' w',
    uart_recv sample_h 254 0 (fun _ => 0) 8 burst_world = Ret (2, buf') w' /\
    tmr_n w' = 254%nat /\
    buf' 0 = 65 /\ buf' 1 = 66.
Proof.
  destruct (uart_recv_partial sample_h 0 (fun _ => 0) 8 2 burst_world)
    as (d & Hd & Hhi & _ & Hrun).
  - lia.
  - right. lia.
  - change U32.modulus with 4294967296. lia.
  - intros k Hk. destruct k as [|[|k]]; [discriminate|discriminate|lia].
  - intros k Hk. destruct k as [|[|k]]; [lia|lia|reflexivity].
  - intros k. unfold next_tmr, burst_world, boot, burst_env.
    cbn [hw tmr_in tmr_n]. lia.
  - unfold next_tmr, burst_world, boot, burst_env. cbn [hw tmr_in tmr_n]. lia.
  - unfold next_tmr, burst_world, boot, burst_env. cbn [hw tmr_in tmr_n].
    change U32.modulus with 4294967296. lia.
  - assert (Ed : d = 250%nat).
    { unfold next_tmr, burst_world, boot, burst_env in Hhi.
      cbn [hw tmr_in tmr_n] in Hhi. lia. }
    subst d.
    destruct (Hrun 254%nat ltac:(lia)) as (buf' & w' & R & Nt & _ & Hb & _).
    exists buf', w'. split; [exact R|]. split; [exact Nt|].
    split; [exact (Hb 0 ltac:(lia)) | exact (Hb 1 ltac:(lia))].
Defined.

(** * More on uart_init *)

Lemma actions_app (l1 l2 : list event) :
  actions (l1 ++ l2) = actions l1 ++ actions l2.
Proof. apply filter_app. Qed.

Lemma reads_no_actions (evs : list event) :
  forallb is_read evs = true -> actions evs = [].
Proof.
  induction evs as [|e evs IH]; intros Hr; [reflexivity|].
  cbn [forallb] in Hr. apply andb_prop in Hr. destruct Hr as (He & Hr).
  unfold actions in *. cbn [filter]. rewrite He. cbn [negb]. apply IH. exact Hr.
Qed.

(** X13: uart_init returns only for a baud rate that is not 0 and,
    when the clock driver has chosen a divided source, only when 16 times
    the baud rate is not a multiple of 2^32: otherwise one of its two
    divisions is a division by zero. *)
Theorem uart_init_needs_divisors (H : uart_h) (fuel : nat) (idx baud mode : Z)
        (w w' : world) :
  uart_init H fuel idx baud mode w = Ret tt w' ->
  baud <> 0 /\
  (clk_in (hw w) idx baud = true -> (16 * baud) mod 2 ^ 32 <> 0).
Proof.
  intros R.
  destruct (uart_init_log H fuel idx baud mode w w' R)
    as (uart & div & us & _ & _ & _ & _ & _ & Hdiv & Hus & _).
  split.
  - intros ->. discriminate.
  - intros Hclk E. rewrite Hclk in Hdiv. unfold uart_div, U32.div in Hdiv.
    assert (E' : U32.mul 16 baud = 0) by exact E.
    rewrite E' in Hdiv. discriminate.
Qed.

Lemma uart_init_needs_divisors_witness :
  exists w', uart_init sample_h 4 0 115200 0 (quiet_world 0) = Ret tt w' /\
             115200 <> 0.
Proof.
  destruct (uart_init sample_h 4 0 115200 0 (quiet_world 0))
    as [[] w'| |] eqn:R.
  - exists w'. split; [reflexivity|].
    exact (proj1 (uart_init_needs_divisors sample_h 4 0 115200 0
                    (quiet_world 0) w' R)).
  - vm_compute in R. discriminate.
  - vm_compute in R. discriminate.
Defined.

(** X14: everything uart_init does besides reading registers, in
    order: the call to the clock driver, the divisor written behind the
    latch, the line control value, the FIFO enable and its 20 us delay,
    flow control off and its 96 us delay, both FIFOs cleared, the caller's
    mode, and the settle delay.  The two waits add register reads only. *)
Theorem uart_init_actions (H : uart_h) (fuel : nat) (idx baud mode : Z)
        (w w' : world) :
  uart_init H fuel idx baud mode w = Ret tt w' ->
  exists uart div us,
    uart_at H idx w = Ret uart w /\
    uart_div (clk_in (hw w) idx baud) baud = Some div /\
    uart_settle_us baud = Some us /\
    actions (log w') =
      [EvSleep us;
       EvWrite uart UART_MCR mode;
       EvWrite uart UART_IIR_FCR
         (Z.lor (Z.lor (UART_IIR_FCR_EN_FIFO H) (UART_IIR_FCR_TX_CLR H))
                (UART_IIR_FCR_RX_CLR H));
       EvSleep 96;
       EvWrite uart UART_MCR 0;
       EvSleep 20;
       EvWrite uart UART_IIR_FCR (UART_IIR_FCR_EN_FIFO H);
       EvWrite uart UART_LCR
         (Z.lor (uart_lcr_stop H baud) (UART_LCR_WORD_LENGTH_8 H));
       EvWrite uart UART_IER_DLAB (U32.to_u8 (Z.shiftr div 8));
       EvWrite uart UART_THR_DLAB (U32.to_u8 div);
       EvWrite uart UART_LCR
         (Z.lor (UART_LCR_DLAB H) (UART_LCR_WORD_LENGTH_8 H));
       EvWrite uart UART_IER_DLAB 0;
       EvClock idx baud] ++ actions (log w).
Proof.
  intros R.
  destruct (uart_init_log H fuel idx baud mode w w' R)
    as (uart & div & us & s1 & s2 & evs1 & evs2 & Hat & Hdiv & Hus & Hr1 & Hr2
        & Hlog & _).
  exists uart, div, us. split; [exact Hat|]. split; [exact Hdiv|].
  split; [exact Hus|].
  rewrite Hlog, !actions_app, (reads_no_actions evs1 Hr1),
    (reads_no_actions evs2 Hr2).
  reflexivity.
Qed.

Lemma uart_init_actions_witness :
  exists w', uart_init sample_h 4 0 115200 0 (quiet_world 0) = Ret tt w' /\
             length (actions (log w')) = 13%nat.
Proof.
  destruct (uart_init sample_h 4 0 115200 0 (quiet_world 0))
    as [[] w'| |] eqn:R.
  - exists w'. split; [reflexivity|].
    destruct (uart_init_actions sample_h 4 0 115200 0 (quiet_world 0) w' R)
      as (uart & div & us & _ & _ & _ & Ha).
    rewrite Ha. reflexivity.
  - vm_compute in R. discriminate.
  - vm_compute in R. discriminate.
Defined.

Lemma drain_rbr_empty (H : uart_h) (uart : Z) (f : nat) (w : world) :
  Z.land (lsr_in (hw w) (lsr_n w)) (UART_LSR_RDR H) = 0 ->
  exists w',
    drain_rbr H (S f) uart w = Ret tt w' /\
    hw w' = hw w /\ lsr_n w' = S (lsr_n w) /\ rbr_n w' = rbr_n w /\
    regs w' = regs w.
Proof.
  intros Hm. cbn [drain_rbr]. prims. rewrite (proj2 (Z.eqb_eq _ _) Hm). prims.
  eexists. repeat split; reflexivity.
Qed.

(** On an idle port (transmitter idle, no byte waiting) uart_wait_xfer
    returns at once, whatever it is asked to wait for. *)
Lemma uart_wait_xfer_idle (H : uart_h) (f : nat) (idx which : Z) (w : world) :
  0 <= idx < 5 ->
  (forall k, (lsr_n w <= k)%nat ->
     Z.land (lsr_in (hw w) k) (UART_LSR_TMTY H) <> 0 /\
     Z.land (lsr_in (hw w) k) (UART_LSR_RDR H) = 0) ->
  exists w',
    uart_wait_xfer H (S f) idx which w = Ret tt w' /\
    hw w' = hw w /\ (lsr_n w <= lsr_n w')%nat /\ rbr_n w' = rbr_n w /\
    regs w' = regs w.
Proof.
  intros Hi Hidle. destruct (uart_at_in_range H idx w Hi) as (off & _ & Hat).
  unfold uart_wait_xfer. unfold bind at 1. rewrite Hat.
  set (uart := U32.add (UART_BASE H) off).
  assert (T : exists w1,
             (if Z.land (UART_TX_IDLE H) which =? 0 then ret tt
              else wait_lsr (S f) uart (UART_LSR_TMTY H)) w = Ret tt w1 /\
             hw w1 = hw w /\ (lsr_n w <= lsr_n w1)%nat /\ rbr_n w1 = rbr_n w /\
             regs w1 = regs w).
  { destruct (Z.land (UART_TX_IDLE H) which =? 0).
    - exists w. repeat split. lia.
    - destruct (wait_lsr_ready uart (UART_LSR_TMTY H) f w
                  (proj1 (Hidle _ (le_n _)))) as (w1 & W & Wh & Wn & Wr & Wg).
      exists w1. repeat split; try assumption. lia. }
  destruct T as (w1 & T1 & Th & Tn & Tr & Tg).
  unfold bind. rewrite T1.
  destruct (Z.land (UART_RX_RDYR H) which =? 0).
  - exists w1. repeat split; assumption.
  - destruct (drain_rbr_empty H uart f w1) as (w2 & D & Dh & Dn & Dr & Dg).
    + rewrite Th. apply Hidle. exact Tn.
    + exists w2. split; [exact D|]. repeat split; try congruence. lia.
Qed.

Lemma uart_div_defined (c : bool) (baud : Z) :
  0 < baud < 2 ^ 28 -> exists d, uart_div c baud = Some d.
Proof.
  intros Hb. unfold uart_div, U32.div, U32.mul. destruct c; [|eexists; reflexivity].
  change (2 ^ 28) with 268435456 in Hb.
  rewrite (wrap_small (16 * baud))
    by (unfold U32.modulus; change (2 ^ 32) with 4294967296; lia).
  destruct (Z.eqb_spec (16 * baud) 0); [lia|]. eexists. reflexivity.
Qed.

Lemma uart_settle_us_defined (baud : Z) :
  baud <> 0 -> exists us, uart_settle_us baud = Some us.
Proof.
  intros Hb. unfold uart_settle_us, U32.div.
  destruct (Z.eqb_spec baud 0); [contradiction|]. eexists. reflexivity.
Qed.

(** X15: on an idle port (transmitter idle and no byte waiting at
    every poll) uart_init returns for every baud rate below 2^28, with any
    fuel but none; it leaves the caller's mode in the modem control
    register and discards no received byte. *)
Theorem uart_init_idle (H : uart_h) (f : nat) (idx baud mode : Z) (w : world) :
  0 <= idx < 5 ->
  0 < baud < 2 ^ 28 ->
  (forall k, Z.land (next_lsr w k) (UART_LSR_TMTY H) <> 0 /\
             Z.land (next_lsr w k) (UART_LSR_RDR H) = 0) ->
  exists uart w',
    uart_at H idx w = Ret uart w /\
    uart_init H (S f) idx baud mode w = Ret tt w' /\
    regs w' uart UART_MCR = mode /\
    rbr_n w' = rbr_n w.
Proof.
  intros Hi Hb Hidle.
  assert (Hfrom : forall k, (lsr_n w <= k)%nat ->
            Z.land (lsr_in (hw w) k) (UART_LSR_TMTY H) <> 0 /\
            Z.land (lsr_in (hw w) k) (UART_LSR_RDR H) = 0).
  { apply (next_lsr_from w (fun v => Z.land v (UART_LSR_TMTY H) <> 0 /\
                                     Z.land v (UART_LSR_RDR H) = 0) Hidle). }
  destruct (uart_at_in_range H idx w Hi) as (off & _ & Hat).
  set (uart := U32.add (UART_BASE H) off) in *.
  exists uart.
  assert (T : exists w1,
             (if Z.land mode (Z.lor (UART_MCR_CTS_EN H) (UART_MCR_DTR H)) =? 0
              then uart_wait_xfer H (S f) idx (UART_TX_IDLE H)
              else ret tt) w = Ret tt w1 /\
             hw w1 = hw w /\ (lsr_n w <= lsr_n w1)%nat /\ rbr_n w1 = rbr_n w).
  { destruct (Z.land mode (Z.lor (UART_MCR_CTS_EN H) (UART_MCR_DTR H)) =? 0).
    - destruct (uart_wait_xfer_idle H f idx (UART_TX_IDLE H) w Hi Hfrom)
        as (w1 & W & Wh & Wn & Wr & _).
      exists w1. repeat split; assumption.
    - exists w. repeat split. lia. }
  destruct T as (w1 & T1 & Th & Tn & Tr).
  destruct (uart_div_defined (clk_in (hw w) idx baud) baud Hb) as (div & Hdiv).
  destruct (uart_settle_us_defined baud ltac:(lia)) as (us & Hus).
  unfold uart_init. unfold bind at 1. rewrite Hat. unfold bind at 1. rewrite T1.
  unfold bind at 1. unfold clock_uart_use_src_div at 1. rewrite Th, Hdiv.
  unfold lift at 1. prims. rewrite Hus. unfold lift. prims.
  match goal with |- context [uart_wait_xfer H (S f) idx ?wh ?w2] =>
    destruct (uart_wait_xfer_idle H f idx wh w2 Hi) as (w' & W & _ & _ & Wr & Wg)
  end.
  { cbn [hw lsr_n]. intros k Hk. apply Hfrom. lia. }
  exists w'. split; [reflexivity|]. split; [exact W|].
  cbn [regs rbr_n] in Wr, Wg. split.
  - rewrite Wg. apply upd_same.
  - congruence.
Qed.

Lemma uart_init_idle_witness :
  exists uart w',
    uart_at sample_h 0 (quiet_world 0) = Ret uart (quiet_world 0) /\
    uart_init sample_h 1 0 115200 0x22 (quiet_world 0) = Ret tt w' /\
    regs w' uart UART_MCR = 0x22 /\
    rbr_n w' = rbr_n (quiet_world 0).
Proof.
  apply (uart_init_idle sample_h 0 0 115200 0x22 (quiet_world 0)).
  - lia.
  - lia.
  - intros k. split; [discriminate|reflexivity].
Defined.

(** * More on uart_empty_fifo *)

Lemma sleeps_app (l1 l2 : list event) : sleeps (l1 ++ l2) = sleeps l1 ++ sleeps l2.
Proof. apply flat_map_app. Qed.

Lemma repeat_sleep (j : nat) (uart v : Z) (l : list event) :
  repeat 100 j ++ sleeps (EvSleep 100 :: EvRead uart UART_LSR v :: l)
  = repeat 100 (S j) ++ sleeps l.
Proof.
  cbn [sleeps flat_map app]. fold (sleeps l).
  induction j as [|j IHj]; [reflexivity|].
  cbn [repeat app] in *. f_equal. exact IHj.
Qed.

Lemma fifo_wait_tx_effects (H : uart_h) (uart : Z) :
  forall (fuel : nat) (tries : Z) (w : world),
    0 <= tries <= 10 ->
    (Z.to_nat (10 - tries) < fuel)%nat ->
    exists t' w' j,
      fifo_wait_tx H fuel uart tries w = Ret t' w' /\
      (j <= Z.to_nat (10 - tries))%nat /\
      regs w' = regs w /\
      writes (log w') = writes (log w) /\
      sleeps (log w') = repeat 100 j ++ sleeps (log w).
Proof.
  induction fuel as [|f IH]; intros tries w Ht Hf; [lia|].
  cbn [fifo_wait_tx].
  destruct (Z.ltb_spec tries 10) as [L|L].
  - prims. destruct (Z.land (lsr_in (hw w) (lsr_n w)) (UART_LSR_TMTY H) =? 0).
    + prims.
      assert (E : U32.add tries 1 = tries + 1)
        by (apply wrap_small; unfold U32.modulus; lia).
      rewrite E.
      match goal with |- context [fifo_wait_tx H f uart (tries + 1) ?w1] =>
        destruct (IH (tries + 1) w1 ltac:(lia) ltac:(lia))
          as (t' & w' & j & R & Hj & Hr & Hw & Hs)
      end.
      exists t', w', (S j). split; [exact R|]. split; [lia|].
      cbn [regs log] in Hr, Hw, Hs. split; [exact Hr|]. split; [exact Hw|].
      rewrite Hs. apply repeat_sleep.
    + prims. exists tries, (
        {| hw := hw w; regs := regs w; lsr_n := S (lsr_n w); rbr_n := rbr_n w;
           iir_n := iir_n w; tmr_n := tmr_n w;
           log := EvRead uart UART_LSR (lsr_in (hw w) (lsr_n w)) :: log w |}), O.
      repeat split. lia.
  - exists tries, w, O. repeat split. lia.
Qed.

Lemma fifo_wait_rx_effects (H : uart_h) (uart : Z) :
  forall (fuel : nat) (tries : Z) (w : world),
    0 <= tries <= 10 ->
    (Z.to_nat (10 - tries) < fuel)%nat ->
    exists t' w' j,
      fifo_wait_rx H fuel uart tries w = Ret t' w' /\
      (j <= Z.to_nat (10 - tries))%nat /\
      regs w' = regs w /\
      writes (log w') = writes (log w) /\
      sleeps (log w') = repeat 100 j ++ sleeps (log w).
Proof.
  induction fuel as [|f IH]; intros tries w Ht Hf; [lia|].
  cbn [fifo_wait_rx].
  destruct (Z.ltb_spec tries 10) as [L|L].
  - prims. destruct (Z.land (lsr_in (hw w) (lsr_n w)) (UART_LSR_RDR H) =? 0).
    + prims. exists tries, (
        {| hw := hw w; regs := regs w; lsr_n := S (lsr_n w); rbr_n := rbr_n w;
           iir_n := iir_n w; tmr_n := tmr_n w;
           log := EvRead uart UART_LSR (lsr_in (hw w) (lsr_n w)) :: log w |}), O.
      repeat split. lia.
    + prims.
      assert (E : U32.add tries 1 = tries + 1)
        by (apply wrap_small; unfold U32.modulus; lia).
      rewrite E.
      match goal with |- context [fifo_wait_rx H f uart (tries + 1) ?w1] =>
        destruct (IH (tries + 1) w1 ltac:(lia) ltac:(lia))
          as (t' & w' & j & R & Hj & Hr & Hw & Hs)
      end.
      exists t', w', (S j). split; [exact R|]. split; [lia|].
      cbn [regs log] in Hr, Hw, Hs. split; [exact Hr|]. split; [exact Hw|].
      rewrite Hs. apply repeat_sleep.
  - exists tries, w, O. repeat split. lia.
Qed.

(** X16: uart_empty_fifo returns with flow control switched off: the
    modem control register holds 0 and is not restored.  Its only writes
    are that one and the FIFO control write that enables the FIFO and
    clears the requested directions; its delays are 96 us, 18 us and then
    at most twenty times 100 us. *)
Theorem uart_empty_fifo_effects (H : uart_h) (fuel : nat) (idx which : Z)
        (w : world) :
  0 <= idx < 5 ->
  (10 < fuel)%nat ->
  exists uart w' k,
    uart_at H idx w = Ret uart w /\
    uart_empty_fifo H fuel idx which w = Ret tt w' /\
    regs w' uart UART_MCR = 0 /\
    writes (log w') =
      EvWrite uart UART_IIR_FCR (Z.lor (UART_IIR_FCR_EN_FIFO H) which)
      :: EvWrite uart UART_MCR 0 :: writes (log w) /\
    (k <= 20)%nat /\
    sleeps (log w') = repeat 100 k ++ 18 :: 96 :: sleeps (log w).
Proof.
  intros Hi Hf. destruct (uart_at_in_range H idx w Hi) as (off & _ & Hat).
  set (uart := U32.add (UART_BASE H) off) in *.
  exists uart.
  unfold uart_empty_fifo. unfold bind at 1. rewrite Hat.
  unfold bind at 1. unfold fifo_clear. prims.
  match goal with |- context [fifo_poll_tx H fuel uart which 0 ?x] =>
    set (w1 := x)
  end.
  assert (TX : exists w2 j,
             fifo_poll_tx H fuel uart which 0 w1 = Ret 0 w2 /\
             (j <= 10)%nat /\ regs w2 = regs w1 /\
             writes (log w2) = writes (log w1) /\
             sleeps (log w2) = repeat 100 j ++ sleeps (log w1)).
  { unfold fifo_poll_tx.
    destruct (Z.land (UART_IIR_FCR_TX_CLR H) which =? 0).
    - exists w1, O. repeat split. lia.
    - destruct (fifo_wait_tx_effects H uart fuel 0 w1 ltac:(lia) ltac:(simpl; lia))
        as (t' & w2 & j & R & Hj & Hr & Hw & Hs).
      exists w2, j. unfold bind. rewrite R. repeat split; assumption. }
  destruct TX as (w2 & j1 & R2 & Hj1 & Hr2 & Hw2 & Hs2).
  assert (RX : exists w3 j,
             fifo_poll_rx H fuel uart which 0 w2 = Ret tt w3 /\
             (j <= 10)%nat /\ regs w3 = regs w2 /\
             writes (log w3) = writes (log w2) /\
             sleeps (log w3) = repeat 100 j ++ sleeps (log w2)).
  { unfold fifo_poll_rx.
    destruct (Z.land (UART_IIR_FCR_RX_CLR H) which =? 0).
    - exists w2, O. repeat split. lia.
    - destruct (fifo_wait_rx_effects H uart fuel 0 w2 ltac:(lia) ltac:(simpl; lia))
        as (t' & w3 & j & R & Hj & Hr & Hw & Hs).
      exists w3, j. unfold bind. rewrite R. repeat split; assumption. }
  destruct RX as (w3 & j2 & R3 & Hj2 & Hr3 & Hw3 & Hs3).
  exists w3, (j2 + j1)%nat. split; [reflexivity|].
  unfold bind. rewrite R2. split; [exact R3|]. split.
  { rewrite Hr3, Hr2. unfold w1. cbn [regs].
    rewrite upd_other by congruence. apply upd_same. }
  split; [rewrite Hw3, Hw2; reflexivity|]. split; [lia|].
  rewrite Hs3, Hs2, repeat_app, <- app_assoc. reflexivity.
Qed.

Lemma uart_empty_fifo_effects_witness :
  exists uart w' k,
    uart_at sample_h 0 stuck_world = Ret uart stuck_world /\
    uart_empty_fifo sample_h 11 0 6 stuck_world = Ret tt w' /\
    regs w' uart UART_MCR = 0 /\
    (k <= 20)%nat.
Proof.
  destruct (uart_empty_fifo_effects sample_h 11 0 6 stuck_world)
    as (uart & w' & k & Hat & R & Hm & _ & Hk & _).
  - lia.
  - lia.
  - exists uart, w', k. repeat split; assumption.
Defined.

Lemma fifo_wait_tx_polls (H : uart_h) (uart : Z) :
  forall (k fuel : nat) (tries : Z) (w : world),
    0 <= tries ->
    tries + Z.of_nat k <= 10 ->
    (forall j, (j < k)%nat ->
       Z.land (lsr_in (hw w) (lsr_n w + j)) (UART_LSR_TMTY H) = 0) ->
    (tries + Z.of_nat k < 10 ->
       Z.land (lsr_in (hw w) (lsr_n w + k)) (UART_LSR_TMTY H) <> 0) ->
    (k < fuel)%nat ->
    exists t' w',
      fifo_wait_tx H fuel uart tries w = Ret t' w' /\
      hw w' = hw w /\
      lsr_n w' = (lsr_n w + k + (if (tries + Z.of_nat k <? 10)%Z then 1 else 0))%nat /\
      sleeps (log w') = repeat 100 k ++ sleeps (log w).
Proof.
  induction k as [|k IH]; intros fuel tries w Ht Hk Hbusy Hdone Hf;
    (destruct fuel as [|f]; [lia|]); cbn [fifo_wait_tx].
  - rewrite Z.add_0_r in *. destruct (Z.ltb_spec tries 10) as [L|L].
    + prims. rewrite Nat.add_0_r in Hdone.
      destruct (Z.eqb_spec (Z.land (lsr_in (hw w) (lsr_n w)) (UART_LSR_TMTY H)) 0)
        as [E|_]; [exfalso; exact (Hdone L E)|].
      prims. eexists. eexists. split; [reflexivity|].
      cbn [hw lsr_n log]. repeat split. lia.
    + exists tries, w. repeat split. lia.
  - destruct (Z.ltb_spec tries 10) as [L|L]; [|lia]. prims.
    pose proof (Hbusy O ltac:(lia)) as H0. rewrite Nat.add_0_r in H0.
    rewrite (proj2 (Z.eqb_eq _ _) H0). prims.
    assert (E : U32.add tries 1 = tries + 1)
      by (apply wrap_small; unfold U32.modulus; lia).
    rewrite E.
    match goal with |- context [fifo_wait_tx H f uart (tries + 1) ?x] =>
      destruct (IH f (tries + 1) x) as (t' & w' & R & Hh & Hn & Hs)
    end.
    + lia.
    + lia.
    + cbn [hw lsr_n]. intros j Hj.
      replace (S (lsr_n w) + j)%nat with (lsr_n w + S j)%nat by lia.
      apply Hbusy. lia.
    + cbn [hw lsr_n]. intros Hlt.
      replace (S (lsr_n w) + k)%nat with (lsr_n w + S k)%nat by lia.
      apply Hdone. lia.
    + lia.
    + exists t', w'. cbn [hw lsr_n log] in *. split; [exact R|].
      split; [exact Hh|]. split.
      * rewrite Hn. replace (tries + 1 + Z.of_nat k) with (tries + Z.of_nat (S k)) by lia.
        lia.
      * rewrite Hs. apply repeat_sleep.
Qed.

Lemma fifo_wait_rx_polls (H : uart_h) (uart : Z) :
  forall (k fuel : nat) (tries : Z) (w : world),
    0 <= tries ->
    tries + Z.of_nat k <= 10 ->
    (forall j, (j < k)%nat ->
       Z.land (lsr_in (hw w) (lsr_n w + j)) (UART_LSR_RDR H) <> 0) ->
    (tries + Z.of_nat k < 10 ->
       Z.land (lsr_in (hw w) (lsr_n w + k)) (UART_LSR_RDR H) = 0) ->
    (k < fuel)%nat ->
    exists t' w',
      fifo_wait_rx H fuel uart tries w = Ret t' w' /\
      hw w' = hw w /\
      lsr_n w' = (lsr_n w + k + (if (tries + Z.of_nat k <? 10)%Z then 1 else 0))%nat /\
      sleeps (log w') = repeat 100 k ++ sleeps (log w).
Proof.
  induction k as [|k IH]; intros fuel tries w Ht Hk Hbusy Hdone Hf;
    (destruct fuel as [|f]; [lia|]); cbn [fifo_wait_rx].
  - rewrite Z.add_0_r in *. destruct (Z.ltb_spec tries 10) as [L|L].
    + prims. rewrite Nat.add_0_r in Hdone.
      rewrite (proj2 (Z.eqb_eq _ _) (Hdone L)).
      prims. eexists. eexists. split; [reflexivity|].
      cbn [hw lsr_n log]. repeat split. lia.
    + exists tries, w. repeat split. lia.
  - destruct (Z.ltb_spec tries 10) as [L|L]; [|lia]. prims.
    pose proof (Hbusy O ltac:(lia)) as H0. rewrite Nat.add_0_r in H0.
    destruct (Z.eqb_spec (Z.land (lsr_in (hw w) (lsr_n w)) (UART_LSR_RDR H)) 0)
      as [E0|_]; [contradiction|].
    prims.
    assert (E : U32.add tries 1 = tries + 1)
      by (apply wrap_small; unfold U32.modulus; lia).
    rewrite E.
    match goal with |- context [fifo_wait_rx H f uart (tries + 1) ?x] =>
      destruct (IH f (tries + 1) x) as (t' & w' & R & Hh & Hn & Hs)
    end.
    + lia.
    + lia.
    + cbn [hw lsr_n]. intros j Hj.
      replace (S (lsr_n w) + j)%nat with (lsr_n w + S j)%nat by lia.
      apply Hbusy. lia.
    + cbn [hw lsr_n]. intros Hlt.
      replace (S (lsr_n w) + k)%nat with (lsr_n w + S k)%nat by lia.
      apply Hdone. lia.
    + lia.
    + exists t', w'. cbn [hw lsr_n log] in *. split; [exact R|].
      split; [exact Hh|]. split.
      * rewrite Hn. replace (tries + 1 + Z.of_nat k) with (tries + Z.of_nat (S k)) by lia.
        lia.
      * rewrite Hs. apply repeat_sleep.
Qed.

(** X17: how long uart_empty_fifo polls when both directions are
    requested.  If the transmitter shows busy at the first [kt] polls and
    idle at the next one (or [kt] is 10), the TX block polls [kt + 1] times
    (10 times when [kt] is 10) and sleeps [kt] times 100 us; the RX block
    then does the same with the receiver-data-ready bit, counting from
    zero again.  Ten failed polls end a block without any sign to the
    caller. *)
Theorem uart_empty_fifo_polls (H : uart_h) (fuel : nat) (idx which : Z)
        (kt kr : nat) (w : world) :
  0 <= idx < 5 ->
  (10 < fuel)%nat ->
  Z.land (UART_IIR_FCR_TX_CLR H) which <> 0 ->
  Z.land (UART_IIR_FCR_RX_CLR H) which <> 0 ->
  (kt <= 10)%nat ->
  (kr <= 10)%nat ->
  let pt := (kt + (if (kt <? 10)%nat then 1 else 0))%nat in
  let pr := (kr + (if (kr <? 10)%nat then 1 else 0))%nat in
  (forall j, (j < kt)%nat -> Z.land (next_lsr w j) (UART_LSR_TMTY H) = 0) ->
  ((kt < 10)%nat -> Z.land (next_lsr w kt) (UART_LSR_TMTY H) <> 0) ->
  (forall j, (j < kr)%nat -> Z.land (next_lsr w (pt + j)) (UART_LSR_RDR H) <> 0) ->
  ((kr < 10)%nat -> Z.land (next_lsr w (pt + kr)) (UART_LSR_RDR H) = 0) ->
  exists w',
    uart_empty_fifo H fuel idx which w = Ret tt w' /\
    lsr_n w' = (lsr_n w + pt + pr)%nat /\
    sleeps (log w') = repeat 100 (kr + kt) ++ 18 :: 96 :: sleeps (log w).
Proof.
  intros Hi Hf Htx Hrx Hkt Hkr pt pr Tbusy Tdone Rbusy Rdone.
  destruct (uart_at_in_range H idx w Hi) as (off & _ & Hat).
  set (uart := U32.add (UART_BASE H) off) in *.
  unfold uart_empty_fifo. unfold bind at 1. rewrite Hat.
  unfold bind at 1. unfold fifo_clear. prims.
  match goal with |- context [fifo_poll_tx H fuel uart which 0 ?x] =>
    set (w1 := x)
  end.
  unfold fifo_poll_tx, fifo_poll_rx.
  destruct (Z.eqb_spec (Z.land (UART_IIR_FCR_TX_CLR H) which) 0) as [E|_];
    [contradiction|].
  destruct (Z.eqb_spec (Z.land (UART_IIR_FCR_RX_CLR H) which) 0) as [E|_];
    [contradiction|].
  assert (Ept : (if (0 + Z.of_nat kt <? 10)%Z then 1 else 0)%nat
                = (if (kt <? 10)%nat then 1 else 0)%nat).
  { destruct (Z.ltb_spec (0 + Z.of_nat kt) 10), (Nat.ltb_spec kt 10);
      try reflexivity; lia. }
  assert (Epr : (if (0 + Z.of_nat kr <? 10)%Z then 1 else 0)%nat
                = (if (kr <? 10)%nat then 1 else 0)%nat).
  { destruct (Z.ltb_spec (0 + Z.of_nat kr) 10), (Nat.ltb_spec kr 10);
      try reflexivity; lia. }
  destruct (fifo_wait_tx_polls H uart kt fuel 0 w1)
    as (t2 & w2 & R2 & Hh2 & Hn2 & Hs2).
  { lia. } { lia. }
  { intros j Hj. apply Tbusy. exact Hj. }
  { intros Hlt. apply Tdone. lia. }
  { lia. }
  rewrite Ept in Hn2. fold pt in Hn2.
  destruct (fifo_wait_rx_polls H uart kr fuel 0 w2)
    as (t3 & w3 & R3 & Hh3 & Hn3 & Hs3).
  { lia. } { lia. }
  { intros j Hj. rewrite Hh2, Hn2. cbn [hw lsr_n w1].
    replace (lsr_n w + kt + (if (kt <? 10)%nat then 1 else 0) + j)%nat
      with (lsr_n w + (pt + j))%nat by (unfold pt; lia).
    apply Rbusy. exact Hj. }
  { intros Hlt. rewrite Hh2, Hn2. cbn [hw lsr_n w1].
    replace (lsr_n w + kt + (if (kt <? 10)%nat then 1 else 0) + kr)%nat
      with (lsr_n w + (pt + kr))%nat by (unfold pt; lia).
    apply Rdone. lia. }
  { lia. }
  rewrite Epr in Hn3. fold pr in Hn3.
  exists w3. unfold bind. rewrite R2. cbn [ret]. rewrite R3.
  split; [reflexivity|]. split.
  - rewrite Hn3, Hn2. cbn [lsr_n w1]. unfold pt. lia.
  - rewrite Hs3, Hs2, repeat_app, <- app_assoc. reflexivity.
Qed.

Lemma uart_empty_fifo_polls_witness :
  exists w',
    uart_empty_fifo sample_h 11 0 6 stuck_world = Ret tt w' /\
    lsr_n w' = (lsr_n stuck_world + 10 + 10)%nat /\
    sleeps (log w') = repeat 100 20 ++ 18 :: 96 :: sleeps (log stuck_world).
Proof.
  apply (uart_empty_fifo_polls sample_h 11 0 6 10 10 stuck_world).
  - lia.
  - lia.
  - discriminate.
  - discriminate.
  - lia.
  - lia.
  - intros j Hj. reflexivity.
  - intros Hlt. lia.
  - intros j Hj. discriminate.
  - intros Hlt. lia.
Defined.
